(** * email-manager: a shallow embedding of the Gmail command-line client

    The development follows the Go sources of the tool:
    - [auth.go]: [getClient], [getTokenFromWeb], [tokenFromFile], [saveToken];
    - [cli.go]: the command handlers;
    - the helpers [extractHeaders], [getBody], [listMessagesWithDetails]
      and [processAttachments] (called [ExtractHeaders], [GetBody],
      [ListMessagesWithDetails], [ProcessAttachments] in
      [internal/gmail/service.go]; the bodies are the same);
    - [internal/gmail/service.go]: [GetService], [ExpandTilde];
      [internal/cli/cli.go]: [runDownloadAttachments], which calls it.

    Go strings are byte strings: they are modelled by [string], whose
    characters are the 256 values of [ascii].  Effects (standard streams,
    the local file system, the remote mail service, the loopback listener)
    are modelled by explicit state passing over a [World], in a small
    state-and-error monad. *)

From Stdlib Require Import NArith ZArith Ascii String List Lia DecimalString.
From stdpp Require Import base strings list gmap.

Open Scope string_scope.
Open Scope list_scope.
Open Scope stdpp_scope.

(** ** Go's [encoding/base64], [URLEncoding] *)

Module Base64.

(** The URL-safe alphabet of RFC 4648, section 5. *)
Definition encodeURL : string :=
  "ABCDEFGHIJKLMNOPQRSTUVWXYZabcdefghijklmnopqrstuvwxyz0123456789-_".

(** [StdPadding] *)
Definition padChar : ascii := "="%char.

(** [enc.encode[v]] for a six-bit value [v]. *)
Definition encode_at (v : N) : ascii :=
  match String.get (N.to_nat v) encodeURL with
  | Some c => c
  | None => padChar
  end.

Fixpoint index_from (c : ascii) (s : string) (i : N) : option N :=
  match s with
  | EmptyString => None
  | String c' s' => if Ascii.eqb c c' then Some i else index_from c s' (N.succ i)
  end.

(** [enc.decodeMap[c]]; [None] stands for the invalid marker [0xff]. *)
Definition decodeMap (c : ascii) : option N := index_from c encodeURL 0.

Definition sextet (val shift : N) : ascii :=
  encode_at (N.land (N.shiftr val shift) 63).

(** [Encoding.Encode]: three source bytes give four characters; a final
    block of one or two bytes is padded. *)
Fixpoint encode (src : list N) : list ascii :=
  match src with
  | [] => []
  | [b0] =>
      let val := N.shiftl b0 16 in
      [sextet val 18; sextet val 12; padChar; padChar]
  | [b0; b1] =>
      let val := N.lor (N.shiftl b0 16) (N.shiftl b1 8) in
      [sextet val 18; sextet val 12; sextet val 6; padChar]
  | b0 :: b1 :: b2 :: rest =>
      let val := N.lor (N.lor (N.shiftl b0 16) (N.shiftl b1 8)) b2 in
      sextet val 18 :: sextet val 12 :: sextet val 6 :: sextet val 0
        :: encode rest
  end.

Definition byte_of (val shift : N) : N := N.land (N.shiftr val shift) 255.

Definition assemble (d0 d1 d2 d3 : N) : N :=
  N.lor (N.lor (N.lor (N.shiftl d0 18) (N.shiftl d1 12)) (N.shiftl d2 6)) d3.

(** [Encoding.Decode] on an input without line breaks.  Every quantum is
    four characters of the alphabet; only the last one may end in one or two
    padding characters, and nothing may follow it.  The encoding is not
    strict: the unused low bits of a padded quantum are not checked. *)
Fixpoint decode (src : list ascii) : option (list N) :=
  match src with
  | [] => Some []
  | c0 :: c1 :: c2 :: c3 :: rest =>
      match decodeMap c0, decodeMap c1 with
      | Some d0, Some d1 =>
          match decodeMap c2, decodeMap c3 with
          | Some d2, Some d3 =>
              let val := assemble d0 d1 d2 d3 in
              match decode rest with
              | Some out => Some (byte_of val 16 :: byte_of val 8 :: byte_of val 0 :: out)
              | None => None
              end
          | Some d2, None =>
              if Ascii.eqb c3 padChar && bool_decide (rest = [])
              then let val := assemble d0 d1 d2 0 in
                   Some [byte_of val 16; byte_of val 8]
              else None
          | None, _ =>
              if Ascii.eqb c2 padChar && Ascii.eqb c3 padChar
                 && bool_decide (rest = [])
              then let val := assemble d0 d1 0 0 in
                   Some [byte_of val 16]
              else None
          end
      | _, _ => None
      end
  | _ => None
  end.

(** The decoder skips carriage returns and line feeds wherever they occur. *)
Definition is_newline (c : ascii) : bool :=
  Ascii.eqb c "010"%char || Ascii.eqb c "013"%char.

Definition bytes_of_string (s : string) : list N :=
  map N_of_ascii (list_ascii_of_string s).

Definition string_of_bytes (bs : list N) : string :=
  string_of_list_ascii (map ascii_of_N bs).

(** [URLEncoding.EncodeToString] *)
Definition EncodeToString (src : string) : string :=
  string_of_list_ascii (encode (bytes_of_string src)).

(** [URLEncoding.DecodeString]; [None] is a [CorruptInputError]. *)
Definition DecodeString (s : string) : option string :=
  match decode (List.filter (fun c => negb (is_newline c)) (list_ascii_of_string s)) with
  | Some bs => Some (string_of_bytes bs)
  | None => None
  end.

(** Every six-bit value is sent to a character of the alphabet that the
    decoding table sends back, and that is neither a line break nor the
    padding. *)
Definition alphabet_ok (v : N) : bool :=
  match decodeMap (encode_at v) with
  | Some v' => N.eqb v' v
  | None => false
  end
  && negb (is_newline (encode_at v))
  && negb (Ascii.eqb (encode_at v) padChar).

End Base64.

(** ** The message tree of the mail service ([gmail.MessagePart]) *)

Record MessagePartHeader := mkHeader {
  Name : string;
  Value : string
}.

Record MessagePartBody := mkBody {
  AttachmentId : string;
  Data : string;
  Size : Z
}.

(** [Body] is a pointer in the source and may be [nil].  The induction
    principle that reaches the sub-parts is [MessagePart_ind'] below. *)
#[local] Unset Elimination Schemes.
Inductive MessagePart := mkPart {
  Body : option MessagePartBody;
  Filename : string;
  Headers : list MessagePartHeader;
  MimeType : string;
  PartId : string;
  Parts : list MessagePart
}.
#[local] Set Elimination Schemes.

(** ** Helper functions *)

(** [extractHeaders]: the loop assigns the named results [subject] and
    [from]; the [switch] compares the header name with ["Subject"] and
    ["From"]. *)
Definition extractHeaders_step (acc : string * string) (header : MessagePartHeader)
  : string * string :=
  let '(subject, from) := acc in
  if String.eqb (Name header) "Subject" then (Value header, from)
  else if String.eqb (Name header) "From" then (subject, Value header)
  else (subject, from).

Definition extractHeaders (headers : list MessagePartHeader) : string * string :=
  fold_left extractHeaders_step headers ("", "").

Definition no_text_content : string := "[No text content]".

(** The [for _, p := range part.Parts] loop of [getBody]; [Some data] when
    the loop body returns [data], [None] when the loop runs to its end. *)
Fixpoint getBody_parts (parts : list MessagePart) : option string :=
  match parts with
  | [] => None
  | p :: rest =>
      if String.eqb (MimeType p) "text/plain" then
        match Body p with
        | Some b =>
            if negb (String.eqb (Data b) "") then
              match Base64.DecodeString (Data b) with
              | Some data => Some data
              | None => getBody_parts rest
              end
            else getBody_parts rest
        | None => getBody_parts rest
        end
      else getBody_parts rest
  end.

Definition getBody_own (part : MessagePart) : option string :=
  match Body part with
  | Some b =>
      if negb (String.eqb (Data b) "") then Base64.DecodeString (Data b)
      else None
  | None => None
  end.

Definition getBody (part : MessagePart) : string :=
  match getBody_own part with
  | Some data => data
  | None =>
      match getBody_parts (Parts part) with
      | Some data => data
      | None => no_text_content
      end
  end.

(** ** Errors, the outside world and the effect monad *)

(** A Go [error] is represented by its message; [fmt.Errorf("ctx: %w", err)]
    prefixes the message of [err]. *)
Definition error := string.

Inductive result (A : Type) :=
| Ok (a : A)
| Err (e : error).
Arguments Ok {A} a.
Arguments Err {A} e.

(** [oauth2.Token]: the persisted record.  [Expiry] is an instant. *)
Record Token := mkToken {
  AccessToken : string;
  TokenType : string;
  RefreshToken : string;
  Expiry : Z
}.

#[global] Instance Token_eq_dec : EqDecision Token.
Proof. solve_decision. Defined.

(** [oauth2.Config] *)
Record Config := mkConfig {
  ClientID : string;
  ClientSecret : string;
  AuthURL : string;
  TokenURL : string;
  RedirectURL : string;
  Scopes : list string
}.

(** What [Config.AuthCodeURL] encodes in the query of the authorization URL. *)
Record AuthorizationRequest := mkAuthReq {
  auth_endpoint : string;
  auth_client_id : string;
  auth_redirect_uri : string;
  auth_scope : list string;
  auth_state : string;
  auth_access_type : string
}.

(** The authenticated handle returned by [Config.Client]. *)
Record Client := mkClient {
  client_config : Config;
  client_token : option Token
}.

(** [gmail.Service], built over an authenticated client. *)
Record Service := mkService {
  service_client : Client
}.

(** An inbound request on the loopback listener: its query parameters, in
    the order of the URL. *)
Record Request := mkRequest {
  query : list (string * string)
}.

(** What the flow of [getTokenFromWeb] receives first while it waits. *)
Inductive Arrival :=
| Callback (r : Request)
| ServeError (e : error)
| Timeout.

(** A regular file: permission bits and content. *)
Record File := mkFile {
  perm : N;
  content : string
}.

Definition owner_can_read (f : File) : bool := N.testbit (perm f) 8.
Definition owner_can_write (f : File) : bool := N.testbit (perm f) 7.

(** Observable actions, in the order in which they happen. *)
Inductive Event :=
| Stdout (s : string)
| Stderr (s : string)
| EvListenAndServe (addr : string)
| EvRespond (contentType body : string)
| EvStartCmd (name : string) (args : list string)
| EvShutdown
| EvExchange (code : string)
| EvMkdirAll (path : string) (mode : N)
| EvOpenFile (path : string)
| EvWriteFile (path data : string) (mode : N)
| EvAttachmentsGet (userId messageID attachmentID : string)
| EvMessagesSend (userId raw : string).

Record World := mkWorld {
  files : gmap string File;
  listening : bool;
  trace : list Event
}.

(** The behaviour of everything the program talks to.  It is fixed during
    one run of a command. *)
Record Env := mkEnv {
  UserHomeDir : result string;
  GOOS : string;
  MkdirAll_error : string -> option error;
  create_error : string -> option error;
  json_Encode : Token -> result string;
  json_Decode : string -> Token * option error;
  ConfigFromJSON : string -> list string -> result Config;
  arrival : Arrival;
  Exchange : Config -> string -> result Token;
  NewService_error : option error;
  Attachments_Get : string -> string -> result string;
  Messages_Send : string -> option error
}.

Definition M (S A : Type) : Type := S -> S * result A.

#[global] Instance M_ret {S} : MRet (M S) := fun A a s => (s, Ok a).

#[global] Instance M_bind {S} : MBind (M S) :=
  fun A B k m s =>
    match m s with
    | (s', Ok a) => k a s'
    | (s', Err e) => (s', Err e)
    end.

Definition ret {S A} (a : A) : M S A := mret a.

Definition fail {S A} (e : error) : M S A := fun s => (s, Err e).

(** [fmt.Errorf(prefix + "%w", err)] on the error path. *)
Definition wrapping {S A} (prefix : string) (m : M S A) : M S A :=
  fun s =>
    match m s with
    | (s', Ok a) => (s', Ok a)
    | (s', Err e) => (s', Err (prefix +:+ e))
    end.

(** Line ends: ["\n"] and ["\r\n"]. *)
Definition LF : string := String "010" EmptyString.
Definition CRLF : string := String "013" (String "010" EmptyString).

Definition emit (e : Event) : M World unit :=
  fun w => (mkWorld (files w) (listening w) (trace w ++ [e]), Ok tt).

(** Run a world action in a state that also holds the cell behind [count *int]. *)
Definition with_count {A} (m : M World A) : M (World * Z) A :=
  fun s => let '(w', r) := m (fst s) in ((w', snd s), r).

(** Go's [int] is 64 bits wide on the supported platforms; [++] wraps. *)
Definition wrap_int (z : Z) : Z := ((z + 2 ^ 63) mod 2 ^ 64 - 2 ^ 63)%Z.

Definition incr_count : M (World * Z) unit :=
  fun s => ((fst s, wrap_int (snd s + 1)), Ok tt).

(** Reading the current state. *)
Definition the_world {S} : M S S := fun s => (s, Ok s).

(** A call whose outcome the environment decides. *)
Definition outcome {S A} (r : result A) : M S A := fun s => (s, r).

Definition may_open (f : File) (reading : bool) : bool :=
  owner_can_write f && (negb reading || owner_can_read f).

(** [os.OpenFile(name, flag|O_CREATE|O_TRUNC, mode)], where [flag] is
    [O_RDWR] when [reading] is set and [O_WRONLY] otherwise: an existing
    file keeps its mode, must grant the access asked for, and is emptied; a
    new file gets [mode] when the environment lets it be created. *)
Definition os_OpenFile_trunc (env : Env) (name : string) (reading : bool) (mode : N)
  : M World unit :=
  fun w =>
    match files w !! name with
    | Some f =>
        if may_open f reading
        then (mkWorld (<[name := mkFile (perm f) ""]> (files w)) (listening w) (trace w), Ok tt)
        else (w, Err ("open " +:+ name +:+ ": permission denied"))
    | None =>
        match create_error env name with
        | Some e => (w, Err e)
        | None =>
            (mkWorld (<[name := mkFile mode ""]> (files w)) (listening w) (trace w), Ok tt)
        end
    end.

(** Writing [data] at the end of the open file [name]. *)
Definition file_Write (name data : string) : M World unit :=
  fun w =>
    match files w !! name with
    | Some f =>
        (mkWorld (<[name := mkFile (perm f) (content f +:+ data)]> (files w))
           (listening w) (trace w), Ok tt)
    | None => (w, Err ("write " +:+ name +:+ ": bad file descriptor"))
    end.

(** [os.WriteFile]: opens with [O_WRONLY|O_CREATE|O_TRUNC] and writes. *)
Definition os_WriteFile (env : Env) (name data : string) (mode : N) : M World unit :=
  emit (EvWriteFile name data mode);;
  os_OpenFile_trunc env name false mode;;
  file_Write name data.

(** [os.Open] followed by reading the whole file. *)
Definition os_Open (w : World) (name : string) : result string :=
  match files w !! name with
  | Some f =>
      if owner_can_read f then Ok (content f)
      else Err ("open " +:+ name +:+ ": permission denied")
  | None => Err ("open " +:+ name +:+ ": no such file or directory")
  end.

(** [os.ReadFile] *)
Definition os_ReadFile (name : string) : M World string :=
  fun w => (w, os_Open w name).

(** [os.MkdirAll]; directories are not tracked, the environment says
    whether the call fails. *)
Definition os_MkdirAll (env : Env) (path : string) (mode : N) : M World unit :=
  emit (EvMkdirAll path mode);;
  match MkdirAll_error env path with
  | Some e => fail e
  | None => ret tt
  end.

(** [filepath.Join] of two elements; an empty element is ignored.  The
    cleaning of the result is left out. *)
Definition filepath_Join (a b : string) : string :=
  if String.eqb a "" then b
  else if String.eqb b "" then a
  else a +:+ "/" +:+ b.

Fixpoint drop_last_element (cs : list ascii) : list ascii :=
  match cs with
  | [] => []
  | c :: rest => if Ascii.eqb c "/"%char then rest else drop_last_element rest
  end.

(** [filepath.Dir]: all but the last element of the path; ["."] when
    nothing is left and the path had no separator. *)
Definition filepath_Dir (path : string) : string :=
  let cs := list_ascii_of_string path in
  if existsb (Ascii.eqb "/"%char) cs then
    match rev (drop_last_element (rev cs)) with
    | [] => "/"
    | d => string_of_list_ascii d
    end
  else ".".

(** [service.Users.Messages.Attachments.Get("me", messageID, id).Do()];
    the value is the [Data] field of the attachment. *)
Definition do_Attachments_Get (env : Env) (messageID attachmentID : string) : M World string :=
  emit (EvAttachmentsGet "me" messageID attachmentID);;
  outcome (Attachments_Get env messageID attachmentID).

Definition decode_base64 {S} (s : string) : M S string :=
  match Base64.DecodeString s with
  | Some data => ret data
  | None => fail "illegal base64 data"
  end.

(** [processAttachments]: the part itself first, then its sub-parts in
    order, each by a recursive call; the first error ends the traversal. *)
Fixpoint processAttachments (env : Env) (messageID : string) (part : MessagePart)
    (dir : string) {struct part} : M (World * Z) unit :=
  (if negb (String.eqb (Filename part) "") then
     match Body part with
     | Some b =>
         let attachmentID := AttachmentId b in
         if negb (String.eqb attachmentID "") then
           with_count (emit (Stderr ("Downloading: " +:+ Filename part +:+ LF)));;
           data ← wrapping ("error downloading attachment " +:+ Filename part +:+ ": ")
                     (with_count (do_Attachments_Get env messageID attachmentID));
           data ← wrapping ("error decoding attachment " +:+ Filename part +:+ ": ")
                     (decode_base64 data);
           let filepath := dir +:+ "/" +:+ Filename part in
           wrapping ("error writing file " +:+ filepath +:+ ": ")
             (with_count (os_WriteFile env filepath data 420));;
           with_count (emit (Stderr ("Saved: " +:+ filepath +:+ LF)));;
           incr_count
         else ret tt
     | None => ret tt
     end
   else ret tt);;
  (fix range (subParts : list MessagePart) : M (World * Z) unit :=
     match subParts with
     | [] => ret tt
     | subPart :: rest =>
         processAttachments env messageID subPart dir ;; range rest
     end) (Parts part).

(** ** TokenStore: [tokenFromFile] and [saveToken] *)

Definition credentialsFile : string := "google_credentials.json".
Definition tokenFile : string := "token_gmail.json".

(** [gmail.GmailModifyScope], [gmail.GmailSendScope], [gmail.GmailLabelsScope] *)
Definition scopes : list string :=
  [ "https://www.googleapis.com/auth/gmail.modify";
    "https://www.googleapis.com/auth/gmail.send";
    "https://www.googleapis.com/auth/gmail.labels" ].

Definition getCredentialsPath (env : Env) : string :=
  match UserHomeDir env with
  | Err _ => ""
  | Ok home => filepath_Join home ".credentials"
  end.

(** [tokenFromFile] returns a pair: the token pointer and the error.  When
    the file cannot be opened the pointer is [nil]; otherwise it is the
    record the decoder filled, together with the decoder's error. *)
Definition tokenFromFile (env : Env) (file : string) (w : World)
  : option Token * option error :=
  match os_Open w file with
  | Err err => (None, Some err)
  | Ok text =>
      let '(token, err) := json_Decode env text in
      (Some token, err)
  end.

(** [json.NewEncoder(f).Encode(token)]: the text is written only when the
    value could be marshalled. *)
Definition json_Encode_to (env : Env) (name : string) (token : Token) : M World unit :=
  text ← outcome (json_Encode env token);
  file_Write name text.

Definition saveToken (env : Env) (path : string) (token : Token) : M World unit :=
  emit (Stderr ("Saving credentials to: " +:+ path +:+ LF));;
  os_MkdirAll env (filepath_Dir path) 448;;
  emit (EvOpenFile path);;
  os_OpenFile_trunc env path true 384;;
  json_Encode_to env path token.

(** ** AuthorizationFlow: [getTokenFromWeb] *)

(** [url.Values.Get]: the first value of the key, or the empty string. *)
Definition Query_Get (r : Request) (key : string) : string :=
  match List.find (fun kv => String.eqb (fst kv) key) (query r) with
  | Some kv => snd kv
  | None => ""
  end.

(** [Config.AuthCodeURL(state, oauth2.AccessTypeOffline)] *)
Definition AuthCodeURL (config : Config) (state : string) : AuthorizationRequest :=
  mkAuthReq (AuthURL config) (ClientID config) (RedirectURL config)
    (Scopes config) state "offline".

Fixpoint join_with (sep : string) (l : list string) : string :=
  match l with
  | [] => ""
  | [x] => x
  | x :: rest => x +:+ sep +:+ join_with sep rest
  end.

(** The text of the authorization URL; the keys are in the order of
    [url.Values.Encode].  Query escaping is left out. *)
Definition url_text (r : AuthorizationRequest) : string :=
  auth_endpoint r +:+ "?access_type=" +:+ auth_access_type r
    +:+ "&client_id=" +:+ auth_client_id r
    +:+ "&redirect_uri=" +:+ auth_redirect_uri r
    +:+ "&response_type=code"
    +:+ "&scope=" +:+ join_with "+" (auth_scope r)
    +:+ "&state=" +:+ auth_state r.

(** What the callback handler hands to the waiting flow: a value on
    [codeChan] or on [errChan]. *)
Inductive Signal :=
| OnCodeChan (code : string)
| OnErrChan (e : error).

Definition TAB : string := String "009" EmptyString.

(** The page written to the browser, with the line breaks and the
    indentation of the raw string literal of the source. *)
Definition success_page : string :=
  let indent := TAB +:+ TAB +:+ TAB in
  LF +:+ indent +:+ "<html>"
  +:+ LF +:+ indent +:+ "<body>"
  +:+ LF +:+ indent +:+ TAB +:+ "<h1>Authentication successful!</h1>"
  +:+ LF +:+ indent +:+ TAB
  +:+ "<p>You can close this window and return to the terminal.</p>"
  +:+ LF +:+ indent +:+ "</body>"
  +:+ LF +:+ indent +:+ "</html>"
  +:+ LF +:+ TAB +:+ TAB.

(** The handler registered for ["/oauth2callback"]. *)
Definition oauth2callback (r : Request) : M World Signal :=
  let code := Query_Get r "code" in
  if String.eqb code "" then
    ret (OnErrChan "no code in callback")
  else
    emit (EvRespond "text/html" success_page);;
    ret (OnCodeChan code).

(** [go server.ListenAndServe()]: the listener is up unless the call
    itself fails, which the flow then receives on [errChan]. *)
Definition start_server (env : Env) (addr : string) : M World unit :=
  fun w =>
    let up := match arrival env with ServeError _ => false | _ => true end in
    (mkWorld (files w) up (trace w ++ [EvListenAndServe addr]), Ok tt).

(** [server.Shutdown(ctx)] *)
Definition server_Shutdown : M World unit :=
  fun w => (mkWorld (files w) false (trace w ++ [EvShutdown]), Ok tt).

(** The [switch runtime.GOOS] that chooses the command opening the browser. *)
Definition browser_command (goos authURL : string) : option (string * list string) :=
  if String.eqb goos "darwin" then Some ("open", [authURL])
  else if String.eqb goos "linux" then Some ("xdg-open", [authURL])
  else if String.eqb goos "windows"
       then Some ("rundll32", ["url.dll,FileProtocolHandler"; authURL])
  else None.

(** The [select]: the first of a code, an error and the timer. *)
Definition await_code (env : Env) : M World string :=
  match arrival env with
  | Callback r =>
      signal ← oauth2callback r;
      match signal with
      | OnCodeChan code => ret code
      | OnErrChan err => fail err
      end
  | ServeError err => fail err
  | Timeout => fail "authentication timeout after 3 minutes"
  end.

Definition do_Exchange (env : Env) (config : Config) (code : string) : M World Token :=
  emit (EvExchange code);;
  outcome (Exchange env config code).

(** [getTokenFromWeb] assigns [config.RedirectURL] through the pointer it
    is given: the configuration as it is afterwards is returned with the
    token. *)
Definition getTokenFromWeb (env : Env) (config : Config) : M World (Config * Token) :=
  let config := mkConfig (ClientID config) (ClientSecret config) (AuthURL config)
                  (TokenURL config) "http://localhost:8080/oauth2callback"
                  (Scopes config) in
  start_server env ":8080";;
  let authURL := url_text (AuthCodeURL config "state-token") in
  emit (Stdout ("Opening browser for authentication..." +:+ LF));;
  emit (Stdout ("If browser doesn't open, visit:" +:+ LF +:+ authURL +:+ LF +:+ LF));;
  match browser_command (GOOS env) authURL with
  | Some (name, args) => emit (EvStartCmd name args)
  | None => ret tt
  end;;
  code ← await_code env;
  server_Shutdown;;
  tok ← wrapping "unable to retrieve token from web: " (do_Exchange env config code);
  emit (Stdout (LF +:+ "Authentication successful!" +:+ LF));;
  ret (config, tok).

(** ** CredentialProvider: [getClient] *)

Definition warn_unless_saved (env : Env) (tokenPath : string) (token : Token) : M World unit :=
  fun w =>
    match saveToken env tokenPath token w with
    | (w', Ok _) => (w', Ok tt)
    | (w', Err err) =>
        emit (Stderr ("Warning: unable to save token: " +:+ err +:+ LF)) w'
    end.

Definition getClient (env : Env) : M World Client :=
  let credPath := filepath_Join (getCredentialsPath env) credentialsFile in
  let tokenPath := filepath_Join (getCredentialsPath env) tokenFile in
  b ← wrapping ("unable to read credentials file " +:+ credPath +:+ ": ")
        (os_ReadFile credPath);
  config ← wrapping "unable to parse credentials: "
             (outcome (ConfigFromJSON env b scopes));
  w ← the_world;
  match tokenFromFile env tokenPath w with
  | (token, None) => ret (mkClient config token)
  | (_, Some _) =>
      '(config, token) ← getTokenFromWeb env config;
      warn_unless_saved env tokenPath token;;
      ret (mkClient config (Some token))
  end.

Definition getGmailService (env : Env) : M World Service :=
  client ← getClient env;
  match NewService_error env with
  | Some err => fail ("unable to create Gmail service: " +:+ err)
  | None => ret (mkService client)
  end.

(** ** The [send] command *)

(** The package-level flag variables that [setupSendFlags] binds. *)
Record SendFlags := mkSendFlags {
  to : string;
  subject : string;
  body : string;
  cc : string;
  bcc : string;
  attach : list string
}.

(** [strings.Builder.WriteString] *)
Definition WriteString (message s : string) : string := message +:+ s.

(** The text that [runSend] accumulates in [message]. *)
Definition send_message (flags : SendFlags) : string :=
  let message := "" in
  let message := WriteString message ("To: " +:+ to flags +:+ CRLF) in
  let message :=
    if negb (String.eqb (cc flags) "")
    then WriteString message ("Cc: " +:+ cc flags +:+ CRLF) else message in
  let message :=
    if negb (String.eqb (bcc flags) "")
    then WriteString message ("Bcc: " +:+ bcc flags +:+ CRLF) else message in
  let message := WriteString message ("Subject: " +:+ subject flags +:+ CRLF) in
  let message := WriteString message CRLF in
  WriteString message (body flags).

(** [service.Users.Messages.Send("me", msg).Do()] *)
Definition do_Messages_Send (env : Env) (service : Service) (raw : string) : M World unit :=
  emit (EvMessagesSend "me" raw);;
  match Messages_Send env raw with
  | Some err => fail err
  | None => ret tt
  end.

(** The check mark that starts the success message, in UTF-8. *)
Definition check_mark : string :=
  String "226" (String "156" (String "133" EmptyString)).

Definition runSend (env : Env) (flags : SendFlags) : M World unit :=
  service ← getGmailService env;
  let raw := Base64.EncodeToString (send_message flags) in
  wrapping "error sending email: " (do_Messages_Send env service raw);;
  emit (Stderr (check_mark +:+ " Email sent successfully to " +:+ to flags +:+ LF)).

(** ** Specification-side notions *)

(** The inline payload of a part, as a reader of the message sees it: the
    body is present, its data is not empty, and the data decodes to
    [text]. *)
Definition decoded_payload (p : MessagePart) (text : string) : Prop :=
  exists b, Body p = Some b /\ Data b <> "" /\ Base64.DecodeString (Data b) = Some text.

(** No inline payload: it is absent, empty, or does not decode. *)
Definition no_payload (p : MessagePart) : Prop :=
  forall text, ~ decoded_payload p text.

Definition is_text_plain (p : MessagePart) : Prop := MimeType p = "text/plain".

(** The payload of the part itself or, failing that, of its first
    [text/plain] child that has one. *)
Definition selected_payload (part : MessagePart) (text : string) : Prop :=
  decoded_payload part text
  \/ (no_payload part
      /\ exists before child after,
           Parts part = before ++ child :: after
           /\ Forall (fun c => is_text_plain c -> no_payload c) before
           /\ is_text_plain child /\ decoded_payload child text).

(** Neither the part nor any of its [text/plain] children has a payload. *)
Definition nothing_selected (part : MessagePart) : Prop :=
  no_payload part
  /\ Forall (fun c => is_text_plain c -> no_payload c) (Parts part).

(** The part with the sub-parts of its children removed: what is left of
    the tree down to depth one. *)
Definition without_grandchildren (part : MessagePart) : MessagePart :=
  mkPart (Body part) (Filename part) (Headers part) (MimeType part) (PartId part)
    (map (fun c => mkPart (Body c) (Filename c) (Headers c) (MimeType c) (PartId c) [])
       (Parts part)).

(** [v] is the value of the last header of [headers] named [name], or the
    empty string when there is none. *)
Definition last_occurrence_or_empty (name : string) (headers : list MessagePartHeader)
    (v : string) : Prop :=
  (exists before h after,
      headers = before ++ h :: after
      /\ Name h = name /\ v = Value h
      /\ Forall (fun h' => Name h' <> name) after)
  \/ (Forall (fun h' => Name h' <> name) headers /\ v = "").

Definition subject_or_from (h : MessagePartHeader) : bool :=
  String.eqb (Name h) "Subject" || String.eqb (Name h) "From".

(** The parts of a tree in document order: a part, then the trees of its
    sub-parts from first to last. *)
Fixpoint document_order (part : MessagePart) : list MessagePart :=
  part :: (fix subtrees (l : list MessagePart) : list MessagePart :=
             match l with
             | [] => []
             | p :: rest => document_order p ++ subtrees rest
             end) (Parts part).

Definition attachment_id (p : MessagePart) : string :=
  match Body p with
  | Some b => AttachmentId b
  | None => ""
  end.

(** A part counts as an attachment when it has a file name and an
    attachment reference. *)
Definition is_attachment (p : MessagePart) : bool :=
  negb (String.eqb (Filename p) "") && negb (String.eqb (attachment_id p) "").

Definition attachment_parts (part : MessagePart) : list MessagePart :=
  List.filter is_attachment (document_order part).

(** What the service holds for an attachment, decoded. *)
Definition fetched (env : Env) (messageID : string) (p : MessagePart) : option string :=
  match Attachments_Get env messageID (attachment_id p) with
  | Ok data => Base64.DecodeString data
  | Err _ => None
  end.

Definition target_path (dir : string) (p : MessagePart) : string :=
  dir +:+ "/" +:+ Filename p.

(** The file at [name] can be written: it exists with the owner's write
    bit, or it can be created. *)
Definition writable_at (env : Env) (w : World) (name : string) : bool :=
  match files w !! name with
  | Some f => owner_can_write f
  | None => bool_decide (create_error env name = None)
  end.

(** The attachment [p] can be fetched and decoded, and its target can be
    written. *)
Definition obtainable (env : Env) (w : World) (messageID dir : string)
    (p : MessagePart) : bool :=
  match fetched env messageID p with Some _ => true | None => false end
  && writable_at env w (target_path dir p).

(** Every attachment of the tree can be fetched, decoded and written. *)
Definition all_obtainable (env : Env) (w : World) (messageID dir : string)
    (part : MessagePart) : bool :=
  forallb (obtainable env w messageID dir) (attachment_parts part).

(** Whatever could be written in [w] can still be written in [w']. *)
Definition keeps_writable (env : Env) (w w' : World) : Prop :=
  forall name, writable_at env w name = true -> writable_at env w' name = true.

(** The actions of one download, in order. *)
Definition download_actions (env : Env) (messageID dir : string) (p : MessagePart)
  : list Event :=
  [ Stderr ("Downloading: " +:+ Filename p +:+ LF);
    EvAttachmentsGet "me" messageID (attachment_id p);
    EvWriteFile (target_path dir p) (default "" (fetched env messageID p)) 420;
    Stderr ("Saved: " +:+ target_path dir p +:+ LF) ].

Definition is_download (e : Event) : bool :=
  match e with EvAttachmentsGet _ _ _ => true | _ => false end.

Definition is_write (e : Event) : bool :=
  match e with EvWriteFile _ _ _ => true | _ => false end.

(** The header lines of an outgoing message, in order. *)
Definition header_lines (flags : SendFlags) : list string :=
  ["To: " +:+ to flags]
  ++ (if decide (cc flags = "") then [] else ["Cc: " +:+ cc flags])
  ++ (if decide (bcc flags = "") then [] else ["Bcc: " +:+ bcc flags])
  ++ ["Subject: " +:+ subject flags].

(** Header lines, each ended by CR LF, an empty line, the body. *)
Definition mime_text (flags : SendFlags) : string :=
  fold_right (fun line text => line +:+ CRLF +:+ text) (CRLF +:+ body flags)
    (header_lines flags).

(** ** A concrete environment *)

Definition dq : string := String "034" EmptyString.

Definition json_member (key value : string) : string :=
  dq +:+ key +:+ dq +:+ ":" +:+ dq +:+ value +:+ dq.

Definition sample_token : Token :=
  mkToken "ya29.a0Af" "Bearer" "1//0gRefresh" 1798761600.

(** The text [encoding/json] writes for [sample_token]. *)
Definition sample_token_json : string :=
  "{" +:+ json_member "access_token" "ya29.a0Af"
  +:+ "," +:+ json_member "token_type" "Bearer"
  +:+ "," +:+ json_member "refresh_token" "1//0gRefresh"
  +:+ "," +:+ json_member "expiry" "2027-01-01T00:00:00Z" +:+ "}" +:+ LF.

Definition sample_config : Config :=
  mkConfig "client-id" "client-secret"
    "https://accounts.google.com/o/oauth2/auth"
    "https://oauth2.googleapis.com/token"
    "" scopes.

Definition sample_credentials : string :=
  "{" +:+ dq +:+ "installed" +:+ dq +:+ ":{}}".

(** An environment for a user whose home is [/home/u].  The JSON codec and
    the token endpoint know [sample_token] only. *)
Definition sample_env (arr : Arrival) (mkdir_err : option error) : Env :=
  {| UserHomeDir := Ok "/home/u";
     GOOS := "linux";
     MkdirAll_error := fun _ => mkdir_err;
     create_error := fun _ => None;
     json_Encode := fun t =>
       if decide (t = sample_token) then Ok sample_token_json
       else Err "json: unsupported value";
     json_Decode := fun text =>
       if String.eqb text sample_token_json then (sample_token, None)
       else (mkToken "" "" "" 0, Some "invalid character");
     ConfigFromJSON := fun b _ =>
       if String.eqb b sample_credentials then Ok sample_config
       else Err "oauth2/google: no credential type found";
     arrival := arr;
     Exchange := fun _ code =>
       if String.eqb code "ABC" then Ok sample_token
       else Err "oauth2: cannot fetch token";
     NewService_error := None;
     Attachments_Get := fun _ id =>
       if String.eqb id "att-1" then Ok "SGVsbG8="
       else if String.eqb id "att-2" then Ok "V29ybGQ="
       else Err "googleapi: Error 404";
     Messages_Send := fun _ => None |}.

(** Only the credentials file is there: no token has been saved yet. *)
Definition fresh_world : World :=
  mkWorld {[ "/home/u/.credentials/google_credentials.json" := mkFile 384 sample_credentials ]}
    false [].

(** The credentials and a saved token are both there. *)
Definition signed_in_world : World :=
  mkWorld (<[ "/home/u/.credentials/token_gmail.json" := mkFile 384 sample_token_json ]>
             (files fresh_world))
    false [].

Definition leaf (mime filename attachmentId data : string) : MessagePart :=
  mkPart (Some (mkBody attachmentId data 0)) filename [] mime "" [].

Definition container (mime : string) (parts : list MessagePart) : MessagePart :=
  mkPart None "" [] mime "" parts.

(** A message with two attachments at different depths, and an inline
    image that has a file name but no attachment reference. *)
Definition sample_message : MessagePart :=
  container "multipart/mixed"
    [ container "multipart/alternative"
        [ leaf "text/plain" "" "" "SGk=";
          container "multipart/related"
            [ leaf "text/html" "" "" "PGI-SGk8L2I-";
              leaf "image/png" "logo.png" "" "iVBORw0K";
              leaf "application/pdf" "a.pdf" "att-1" "" ] ];
      leaf "text/csv" "b.csv" "att-2" "" ].

(** A callback that carries a code and a state the flow never issued. *)
Definition forged_callback : Request :=
  mkRequest [("state", "not-the-state"); ("code", "ABC")].

(** A body that is HTML only, one level down. *)
Definition html_only_message : MessagePart :=
  container "multipart/alternative" [ leaf "text/html" "" "" "PGI-SGk8L2I-" ].

(** A body whose first [text/plain] child carries data that is not
    base64, followed by an HTML part and a readable [text/plain] part. *)
Definition damaged_first_message : MessagePart :=
  container "multipart/alternative"
    [ leaf "text/plain" "" "" "*not base64*";
      leaf "text/html" "" "" "PGI-SGk8L2I-";
      leaf "text/plain" "" "" "SGk=" ].

(** The scope that the specification gives to [getBody]: the part itself
    and its immediate children. *)
Definition in_scope (part q : MessagePart) : Prop :=
  q = part \/ In q (Parts part).

(** The specification's sentence: the sentinel is returned exactly when
    nothing in the scope has a payload. *)
Definition sentinel_iff_scope_empty (part : MessagePart) : Prop :=
  getBody part = no_text_content <-> (forall q, in_scope part q -> no_payload q).

(** The two halves of [processAttachments], named for the proofs: what it
    does for the part itself, and the loop over the sub-parts. *)
Definition download_part (env : Env) (messageID : string) (part : MessagePart)
    (dir : string) : M (World * Z) unit :=
  if negb (String.eqb (Filename part) "") then
    match Body part with
    | Some b =>
        let attachmentID := AttachmentId b in
        if negb (String.eqb attachmentID "") then
          with_count (emit (Stderr ("Downloading: " +:+ Filename part +:+ LF)));;
          data ← wrapping ("error downloading attachment " +:+ Filename part +:+ ": ")
                    (with_count (do_Attachments_Get env messageID attachmentID));
          data ← wrapping ("error decoding attachment " +:+ Filename part +:+ ": ")
                    (decode_base64 data);
          let filepath := dir +:+ "/" +:+ Filename part in
          wrapping ("error writing file " +:+ filepath +:+ ": ")
            (with_count (os_WriteFile env filepath data 420));;
          with_count (emit (Stderr ("Saved: " +:+ filepath +:+ LF)));;
          incr_count
        else ret tt
    | None => ret tt
    end
  else ret tt.

Fixpoint processAttachments_range (env : Env) (messageID dir : string)
    (subParts : list MessagePart) : M (World * Z) unit :=
  match subParts with
  | [] => ret tt
  | subPart :: rest =>
      processAttachments env messageID subPart dir;;
      processAttachments_range env messageID dir rest
  end.

(** [count] after [n] increments. *)
Definition count_after (n : nat) (count : Z) : Z :=
  Nat.iter n (fun c => wrap_int (c + 1)) count.

(** What a successful traversal of [l], the attachments met in order,
    leaves behind. *)
Definition downloaded (env : Env) (messageID dir : string) (l : list MessagePart)
    (w : World) (count : Z) (run : World * Z * result unit) : Prop :=
  exists w',
    run = ((w', count_after (length l) count), Ok tt)
    /\ trace w' = trace w ++ flat_map (download_actions env messageID dir) l
    /\ keeps_writable env w w'.


(** A message whose first attachment is not known to the service. *)
Definition broken_first_message : MessagePart :=
  container "multipart/mixed"
    [ leaf "application/pdf" "x.pdf" "att-9" "";
      leaf "text/csv" "b.csv" "att-2" "" ].

(** The world after some more events. *)
Definition add_events (w : World) (events : list Event) : World :=
  mkWorld (files w) (listening w) (trace w ++ events).

(** Two invocations of [send] that differ in the [--attach] values only. *)
Definition plain_send : SendFlags :=
  mkSendFlags "a@x.com" "Hi" "Hello" "" "" [].

Definition send_with_attachments : SendFlags :=
  mkSendFlags "a@x.com" "Hi" "Hello" "" "" ["report.pdf"; "notes.txt"].

(** The configuration once [getTokenFromWeb] has set the redirect target. *)
Definition redirected (config : Config) : Config :=
  mkConfig (ClientID config) (ClientSecret config) (AuthURL config)
    (TokenURL config) "http://localhost:8080/oauth2callback" (Scopes config).

(** What the flow does before it starts to wait: the listener, the two
    lines on standard output, the browser. *)
Definition launch_events (env : Env) (config : Config) : list Event :=
  let authURL := url_text (AuthCodeURL (redirected config) "state-token") in
  [ EvListenAndServe ":8080";
    Stdout ("Opening browser for authentication..." +:+ LF);
    Stdout ("If browser doesn't open, visit:" +:+ LF +:+ authURL +:+ LF +:+ LF) ]
  ++ match browser_command (GOOS env) authURL with
     | Some (name, args) => [EvStartCmd name args]
     | None => []
     end.

(** Whether the listener is serving while the flow waits. *)
Definition listener_up (env : Env) : bool :=
  match arrival env with ServeError _ => false | _ => true end.

(** The world when the flow starts to wait. *)
Definition launched (env : Env) (config : Config) (w : World) : World :=
  mkWorld (files w) (listener_up env) (trace w ++ launch_events env config).

(** The rest of [getTokenFromWeb], from the [select] on. *)
Definition after_launch (env : Env) (config : Config) : M World (Config * Token) :=
  code ← await_code env;
  server_Shutdown;;
  tok ← wrapping "unable to retrieve token from web: " (do_Exchange env (redirected config) code);
  emit (Stdout (LF +:+ "Authentication successful!" +:+ LF));;
  ret (redirected config, tok).

(** The world once the listener has been shut down. *)
Definition stopped (w : World) : World :=
  mkWorld (files w) false (trace w).

(** The specification's state check: a callback whose state is not the one
    of the authorization request makes the flow fail, and its code is not
    exchanged. *)
Definition state_mismatch_fails (env : Env) (config : Config) (w : World) : Prop :=
  forall r,
    arrival env = Callback r ->
    Query_Get r "code" <> "" ->
    Query_Get r "state" <> auth_state (AuthCodeURL (redirected config) "state-token") ->
    (exists err, snd (getTokenFromWeb env config w) = Err err)
    /\ ~ In (EvExchange (Query_Get r "code")) (trace (fst (getTokenFromWeb env config w))).


(** The two well-known paths of [getClient]. *)
Definition token_path (env : Env) : string :=
  filepath_Join (getCredentialsPath env) tokenFile.
Definition credentials_path (env : Env) : string :=
  filepath_Join (getCredentialsPath env) credentialsFile.

(** ** The other commands *)

(** [gmail.Message], as far as the commands read it.  [Messages.Get] is
    called in its default format, in which the service sets the payload;
    the commands read the payload without a check. *)
Record Message := mkMessage {
  Id : string;
  Payload : MessagePart
}.

Module Label.
(** [gmail.Label] *)
Record t := mk {
  Name : string;
  Id : string
}.
End Label.

(** The requests that the other commands send to the mail service. *)
Inductive Call :=
| MessagesGet (userId id : string)
| MessagesList (userId : string) (q : option string) (maxResults : Z)
| MessagesModify (userId id : string) (addLabelIds removeLabelIds : list string)
| MessagesTrash (userId id : string)
| LabelsCreate (userId name : string)
| LabelsList (userId : string).

(** The answers of the mail service to these requests.  [Messages_List]
    gets the query, when one was set on the call, and the maximum. *)
Record Mailbox := mkMailbox {
  Messages_Get : string -> result Message;
  Messages_List : option string -> Z -> result (list Message);
  Messages_Modify : string -> list string -> list string -> option error;
  Messages_Trash : string -> option error;
  Labels_Create : string -> result Label.t;
  Labels_List : result (list Label.t)
}.

(** The state of a command: the world, and the requests sent so far. *)
Definition Session : Type := World * list Call.

Definition in_session {A} (m : M World A) : M Session A :=
  fun s => let '(w', r) := m (fst s) in ((w', snd s), r).

(** Sending a request; the mail service decides the answer. *)
Definition request {A} (c : Call) (answer : result A) : M Session A :=
  fun s => ((fst s, snd s ++ [c]), answer).

Definition error_of (o : option error) : result unit :=
  match o with
  | Some err => Err err
  | None => Ok tt
  end.

(** Running [m] and looking at its error instead of returning it. *)
Definition attempt {S A} (m : M S A) : M S (result A) :=
  fun s => let '(s', r) := m s in (s', Ok r).

(** A traversal on a counter that starts at [count]; the value is the
    counter afterwards. *)
Definition counting_from (count : Z) (m : M (World * Z) unit) : M Session Z :=
  fun s =>
    let '((w', count'), r) := m (fst s, count) in
    ((w', snd s), match r with Ok _ => Ok count' | Err e => Err e end).

(** [%d] of an [int] *)
Definition format_int (z : Z) : string := NilZero.string_of_int (Z.to_int z).

(** [strings.Repeat] *)
Fixpoint strings_Repeat (s : string) (count : nat) : string :=
  match count with
  | O => ""
  | S n => s +:+ strings_Repeat s n
  end.

(** [strings.Replace(s, old, new, 1)]: the first occurrence of [old], when
    there is one, is replaced by [new]. *)
Fixpoint strings_Replace_once (s old new : string) : string :=
  if String.prefix old s
  then new +:+ String.substring (String.length old) (String.length s - String.length old) s
  else match s with
       | EmptyString => EmptyString
       | String c rest => String c (strings_Replace_once rest old new)
       end.

(** The commands take their arguments from [args], whose length
    [cobra.ExactArgs] has checked, and from the flag variables; both are
    parameters here. *)

Definition runApplyLabel (env : Env) (box : Mailbox) (messageID labelID : string)
  : M Session unit :=
  service ← in_session (getGmailService env);
  wrapping "error applying label: "
    (request (MessagesModify "me" messageID [labelID] [])
       (error_of (Messages_Modify box messageID [labelID] [])));;
  in_session (emit (Stderr (check_mark +:+ " Label applied" +:+ LF))).

Definition runArchive (env : Env) (box : Mailbox) (messageID : string) : M Session unit :=
  service ← in_session (getGmailService env);
  wrapping "error archiving: "
    (request (MessagesModify "me" messageID [] ["INBOX"])
       (error_of (Messages_Modify box messageID [] ["INBOX"])));;
  in_session (emit (Stderr (check_mark +:+ " Message archived" +:+ LF))).

Definition runCreateLabel (env : Env) (box : Mailbox) (name : string) : M Session unit :=
  service ← in_session (getGmailService env);
  result ← wrapping "error creating label: "
             (request (LabelsCreate "me" name) (Labels_Create box name));
  in_session (emit (Stderr (check_mark +:+ " Label created: " +:+ Label.Name result
                            +:+ " (ID: " +:+ Label.Id result +:+ ")" +:+ LF))).

Definition runDelete (env : Env) (box : Mailbox) (messageID : string) : M Session unit :=
  service ← in_session (getGmailService env);
  wrapping "error deleting: "
    (request (MessagesTrash "me" messageID) (error_of (Messages_Trash box messageID)));;
  in_session (emit (Stderr (check_mark +:+ " Message deleted" +:+ LF))).

Definition runDownloadAttachments (env : Env) (box : Mailbox) (ExpandEnv : string -> string)
    (downloadDir messageID : string) : M Session unit :=
  service ← in_session (getGmailService env);
  msg ← wrapping "error getting message: "
          (request (MessagesGet "me" messageID) (Messages_Get box messageID));
  let dir := ExpandEnv downloadDir in
  dir ← (if String.prefix "~/" dir then
           home ← wrapping "error getting home directory: " (outcome (UserHomeDir env));
           ret (strings_Replace_once dir "~" home)
         else ret dir);
  wrapping "error creating download directory: " (in_session (os_MkdirAll env dir 493));;
  attachmentCount ← counting_from 0 (processAttachments env messageID (Payload msg) dir);
  if (attachmentCount =? 0)%Z then
    in_session (emit (Stderr ("No attachments found" +:+ LF)))
  else
    in_session (emit (Stderr (check_mark +:+ " Downloaded " +:+ format_int attachmentCount
                              +:+ " attachment(s) to " +:+ dir +:+ LF))).

(** The loop of [runGet] over the headers of the message. *)
Fixpoint print_headers (headers : list MessagePartHeader) : M World unit :=
  match headers with
  | [] => ret tt
  | header :: rest =>
      (if String.eqb (Name header) "From" || String.eqb (Name header) "To"
          || String.eqb (Name header) "Subject" || String.eqb (Name header) "Date"
       then emit (Stdout (Name header +:+ ": " +:+ Value header +:+ LF))
       else ret tt);;
      print_headers rest
  end.

Definition runGet (env : Env) (box : Mailbox) (messageID : string) : M Session unit :=
  service ← in_session (getGmailService env);
  msg ← wrapping "error getting message: "
          (request (MessagesGet "me" messageID) (Messages_Get box messageID));
  in_session (print_headers (Headers (Payload msg)));;
  in_session (emit (Stdout (LF +:+ strings_Repeat "=" 80 +:+ LF)));;
  let body := getBody (Payload msg) in
  in_session (emit (Stdout (body +:+ LF))).

Fixpoint listMessagesWithDetails (box : Mailbox) (messages : list Message) : M Session unit :=
  match messages with
  | [] => ret tt
  | msg :: rest =>
      answer ← attempt (request (MessagesGet "me" (Id msg)) (Messages_Get box (Id msg)));
      match answer with
      | Err err =>
          in_session (emit (Stderr ("Warning: failed to get message " +:+ Id msg +:+ ": "
                                    +:+ err +:+ LF)))
      | Ok fullMsg =>
          let '(subject, from) := extractHeaders (Headers (Payload fullMsg)) in
          in_session (emit (Stdout ("ID: " +:+ Id msg +:+ LF)));;
          in_session (emit (Stdout ("From: " +:+ from +:+ LF)));;
          in_session (emit (Stdout ("Subject: " +:+ subject +:+ LF)));;
          in_session (emit (Stdout ("---" +:+ LF)))
      end;;
      listMessagesWithDetails box rest
  end.

Definition runList (env : Env) (box : Mailbox) (query : string) (maxResults : Z)
  : M Session unit :=
  service ← in_session (getGmailService env);
  let q := if negb (String.eqb query "") then Some query else None in
  response ← wrapping "error listing messages: "
               (request (MessagesList "me" q maxResults) (Messages_List box q maxResults));
  listMessagesWithDetails box response.

Fixpoint print_labels (labels : list Label.t) : M World unit :=
  match labels with
  | [] => ret tt
  | label :: rest =>
      emit (Stdout (Label.Name label +:+ " (ID: " +:+ Label.Id label +:+ ")" +:+ LF));;
      print_labels rest
  end.

Definition runListLabels (env : Env) (box : Mailbox) : M Session unit :=
  service ← in_session (getGmailService env);
  response ← wrapping "error listing labels: " (request (LabelsList "me") (Labels_List box));
  in_session (print_labels response).

Definition runRead (env : Env) (box : Mailbox) (messageID : string) : M Session unit :=
  service ← in_session (getGmailService env);
  wrapping "error marking as read: "
    (request (MessagesModify "me" messageID [] ["UNREAD"])
       (error_of (Messages_Modify box messageID [] ["UNREAD"])));;
  in_session (emit (Stderr (check_mark +:+ " Message marked as read" +:+ LF))).

Definition runSearch (env : Env) (box : Mailbox) (query : string) (maxResults : Z)
  : M Session unit :=
  service ← in_session (getGmailService env);
  response ← wrapping "error searching: "
               (request (MessagesList "me" (Some query) maxResults)
                  (Messages_List box (Some query) maxResults));
  in_session (emit (Stderr ("Found " +:+ format_int (Z.of_nat (length response))
                            +:+ " messages" +:+ LF +:+ LF)));;
  listMessagesWithDetails box response.

Definition runUnread (env : Env) (box : Mailbox) (messageID : string) : M Session unit :=
  service ← in_session (getGmailService env);
  wrapping "error marking as unread: "
    (request (MessagesModify "me" messageID ["UNREAD"] [])
       (error_of (Messages_Modify box messageID ["UNREAD"] [])));;
  in_session (emit (Stderr (check_mark +:+ " Message marked as unread" +:+ LF))).

(** ** The packages [internal/gmail] and [internal/cli] *)

Module Gmail.

(** [GetService]; its [auth.GetClient] is a parameter. *)
Definition GetService (GetClient : M World Client) (env : Env) : M World Service :=
  client ← GetClient;
  match NewService_error env with
  | Some err => fail ("unable to create Gmail service: " +:+ err)
  | None => ret (mkService client)
  end.

Definition ExpandTilde (env : Env) (ExpandEnv : string -> string) (path : string)
  : result string :=
  let dir := ExpandEnv path in
  if String.prefix "~/" dir then
    match UserHomeDir env with
    | Err err => Err ("error getting home directory: " +:+ err)
    | Ok home => Ok (strings_Replace_once dir "~" home)
    end
  else Ok dir.

(** The text of [ProcessAttachments] is that of [processAttachments]. *)
Definition ProcessAttachments := processAttachments.

End Gmail.

Module Cli.

Definition runDownloadAttachments (GetClient : M World Client) (env : Env) (box : Mailbox)
    (ExpandEnv : string -> string) (downloadDir messageID : string) : M Session unit :=
  service ← in_session (Gmail.GetService GetClient env);
  msg ← wrapping "error getting message: "
          (request (MessagesGet "me" messageID) (Messages_Get box messageID));
  dir ← outcome (Gmail.ExpandTilde env ExpandEnv downloadDir);
  wrapping "error creating download directory: " (in_session (os_MkdirAll env dir 493));;
  attachmentCount ← counting_from 0
                      (Gmail.ProcessAttachments env messageID (Payload msg) dir);
  if (attachmentCount =? 0)%Z then
    in_session (emit (Stderr ("No attachments found" +:+ LF)))
  else
    in_session (emit (Stderr ("Downloaded " +:+ format_int attachmentCount
                              +:+ " attachment(s) to " +:+ dir +:+ LF))).

End Cli.

(** ** Further notions: authentication *)

(** What [getTokenFromWeb] returns, by what arrives while it waits. *)
Definition flow_result (env : Env) (config : Config) : result (Config * Token) :=
  match arrival env with
  | Callback r =>
      if String.eqb (Query_Get r "code") "" then Err "no code in callback"
      else match Exchange env (redirected config) (Query_Get r "code") with
           | Ok tok => Ok (redirected config, tok)
           | Err e => Err ("unable to retrieve token from web: " +:+ e)
           end
  | ServeError e => Err e
  | Timeout => Err "authentication timeout after 3 minutes"
  end.

(** What [getTokenFromWeb] does once something has arrived. *)
Definition flow_events (env : Env) (config : Config) : list Event :=
  match arrival env with
  | Callback r =>
      if String.eqb (Query_Get r "code") "" then []
      else [EvRespond "text/html" success_page; EvShutdown; EvExchange (Query_Get r "code")]
           ++ match Exchange env (redirected config) (Query_Get r "code") with
              | Ok _ => [Stdout (LF +:+ "Authentication successful!" +:+ LF)]
              | Err _ => []
              end
  | ServeError _ => []
  | Timeout => []
  end.

(** Whether the listener is still serving when [getTokenFromWeb] returns. *)
Definition flow_listening (env : Env) : bool :=
  match arrival env with
  | Callback r => String.eqb (Query_Get r "code") ""
  | ServeError _ => false
  | Timeout => true
  end.

Definition is_exchange (e : Event) : bool :=
  match e with EvExchange _ => true | _ => false end.

(** The mode of the file that an open with [O_CREATE] and mode [mode]
    leaves at [path]: an existing file keeps its own. *)
Definition mode_after_open (w : World) (path : string) (mode : N) : N :=
  match files w !! path with
  | Some f => perm f
  | None => mode
  end.

(** The error of opening [path] for reading and writing, if any. *)
Definition open_error (env : Env) (w : World) (path : string) : option error :=
  match files w !! path with
  | Some f => if may_open f true then None
              else Some ("open " +:+ path +:+ ": permission denied")
  | None => create_error env path
  end.

(** The events of [saveToken] up to the point it reaches. *)
Definition saveToken_events (env : Env) (path : string) : list Event :=
  [Stderr ("Saving credentials to: " +:+ path +:+ LF); EvMkdirAll (filepath_Dir path) 448]
  ++ match MkdirAll_error env (filepath_Dir path) with
     | Some _ => []
     | None => [EvOpenFile path]
     end.

(** Events of the mail service, and writes of downloaded files. *)
Definition is_mail_event (e : Event) : bool :=
  match e with
  | EvWriteFile _ _ _ | EvAttachmentsGet _ _ _ | EvMessagesSend _ _ => true
  | _ => false
  end.

(** An environment in which the home directory cannot be determined. *)
Definition homeless_env : Env :=
  let env := sample_env Timeout None in
  mkEnv (Err "$HOME is not defined") (GOOS env) (MkdirAll_error env) (create_error env)
    (json_Encode env) (json_Decode env) (ConfigFromJSON env) (arrival env) (Exchange env)
    (NewService_error env) (Attachments_Get env) (Messages_Send env).

(** A token that the sample codec cannot encode. *)
Definition unencodable_token : Token := mkToken "ya29.a0Af" "Bearer" "1//0gRefresh" 253402300800.

(** ** Further notions: downloads *)

(** The files after [os.WriteFile(name, data, mode)] succeeded: an existing
    file keeps its mode. *)
Definition written (fs : gmap string File) (name data : string) (mode : N)
  : gmap string File :=
  <[name := mkFile (match fs !! name with Some f => perm f | None => mode end) data]> fs.

(** The files after the attachments [l] have been saved, one after the
    other. *)
Definition saved_files (env : Env) (messageID dir : string) (l : list MessagePart)
    (fs : gmap string File) : gmap string File :=
  fold_left (fun fs p => written fs (target_path dir p)
                           (default "" (fetched env messageID p)) 420) l fs.

(** What a traversal of [l] leaves on disk and in the counter: the first
    [k] attachments have been saved, all of them exactly when it succeeded. *)
Definition stored (env : Env) (messageID dir : string) (l : list MessagePart)
    (w : World) (count : Z) (run : World * Z * result unit) : Prop :=
  exists w' count' r k,
    run = ((w', count'), r)
    /\ files w' = saved_files env messageID dir (take k l) (files w)
    /\ Forall (fun p => fetched env messageID p <> None) (take k l)
    /\ count' = count_after k count
    /\ match r with
       | Ok _ => k = length l
       | Err _ => (k < length l)%nat
       end.



(** ** Further notions: bodies and outgoing messages *)

(** The flags of [send] with the copy recipients moved into the value of
    [--to], after a line break. *)
Definition cc_inside_to (flags : SendFlags) : SendFlags :=
  mkSendFlags (to flags +:+ CRLF +:+ "Cc: " +:+ cc flags) (subject flags) (body flags)
    "" (bcc flags) (attach flags).

Definition send_with_copy : SendFlags :=
  mkSendFlags "a@x.com" "Hi" "Hello" "c@x.com" "" [].


Definition is_send (e : Event) : bool :=
  match e with EvMessagesSend _ _ => true | _ => false end.

(** A mail service that refuses every message. *)
Definition refusing_env : Env :=
  let env := sample_env Timeout None in
  mkEnv (UserHomeDir env) (GOOS env) (MkdirAll_error env) (create_error env)
    (json_Encode env) (json_Decode env) (ConfigFromJSON env) (arrival env) (Exchange env)
    (NewService_error env) (Attachments_Get env)
    (fun _ => Some "googleapi: Error 400: Invalid To header").

(** ** Further notions: the other commands *)

(** What a command that sends the one request [c] leaves behind, once the
    service is there: the request, and then either the error of the
    answer behind [prefix] or the lines [done] on standard error. *)
Definition one_request {A} (w1 : World) (calls : list Call) (c : Call) (answer : result A)
    (prefix : string) (done : A -> list Event) : Session * result unit :=
  match answer with
  | Ok a => ((add_events w1 (done a), calls ++ [c]), Ok tt)
  | Err err => ((w1, calls ++ [c]), Err (prefix +:+ err))
  end.

(** A command that starts by obtaining the service and goes on with [k]. *)
Definition with_service (env : Env) (w : World) (calls : list Call)
    (k : World -> Session * result unit) : Session * result unit :=
  match getGmailService env w with
  | (w1, Ok _) => k w1
  | (w1, Err e) => ((w1, calls), Err e)
  end.

(** What [listMessagesWithDetails] prints for one message. *)
Definition listing (box : Mailbox) (msg : Message) : list Event :=
  match Messages_Get box (Id msg) with
  | Err err =>
      [Stderr ("Warning: failed to get message " +:+ Id msg +:+ ": " +:+ err +:+ LF)]
  | Ok fullMsg =>
      [ Stdout ("ID: " +:+ Id msg +:+ LF);
        Stdout ("From: " +:+ snd (extractHeaders (Headers (Payload fullMsg))) +:+ LF);
        Stdout ("Subject: " +:+ fst (extractHeaders (Headers (Payload fullMsg))) +:+ LF);
        Stdout ("---" +:+ LF) ]
  end.

(** The headers that [runGet] shows. *)
Definition is_shown (header : MessagePartHeader) : bool :=
  bool_decide (Name header ∈ ["From"; "To"; "Subject"; "Date"]).

Definition is_stdout (e : Event) : bool :=
  match e with Stdout _ => true | _ => false end.

(** A message with the attachments of [sample_message]. *)
Definition sample_mail : Message :=
  mkMessage "m1"
    (mkPart None "" [ mkHeader "From" "a@x.com"; mkHeader "Subject" "Report";
                      mkHeader "X-Mailer" "none"; mkHeader "Date" "Mon" ]
       "multipart/mixed" "" (Parts sample_message)).

(** A mail service that knows two messages and two labels. *)
Definition sample_box : Mailbox :=
  {| Messages_Get := fun id =>
       if String.eqb id "m1" then Ok sample_mail
       else if String.eqb id "m2"
       then Ok (mkMessage "m2"
                  (mkPart (Some (mkBody "" "SGk=" 2)) "" [mkHeader "Subject" "Hi"]
                     "text/plain" "" []))
       else Err "googleapi: Error 404";
     Messages_List := fun q maxResults =>
       Ok [ mkMessage "m1" (container "" []); mkMessage "m3" (container "" []);
            mkMessage "m2" (container "" []) ];
     Messages_Modify := fun id add remove =>
       if String.eqb id "m1" then None else Some "googleapi: Error 404";
     Messages_Trash := fun id =>
       if String.eqb id "m1" then None else Some "googleapi: Error 404";
     Labels_Create := fun name => Ok (Label.mk name "Label_7");
     Labels_List := Ok [Label.mk "INBOX" "INBOX"; Label.mk "Work" "Label_7"] |}.

(** An environment without variables: [os.ExpandEnv] finds nothing to
    replace in a path without [$]. *)
Definition no_variables (path : string) : string := path.

(** The line that ends a download: [mark] is what the package puts before
    the word "Downloaded". *)
Definition download_report (mark : string) (count : Z) (dir : string) : Event :=
  if (count =? 0)%Z then Stderr ("No attachments found" +:+ LF)
  else Stderr (mark +:+ "Downloaded " +:+ format_int count +:+ " attachment(s) to "
               +:+ dir +:+ LF).

(** The [download-attachments] command once the service is there: the
    message is asked for, the directory is expanded and made, the
    attachments are saved, the report is printed. *)
Definition download_outcome (mark : string) (env : Env) (box : Mailbox)
    (ExpandEnv : string -> string) (downloadDir messageID : string)
    (calls : list Call) (w1 : World) : Session * result unit :=
  let calls' := calls ++ [MessagesGet "me" messageID] in
  match Messages_Get box messageID with
  | Err err => ((w1, calls'), Err ("error getting message: " +:+ err))
  | Ok msg =>
      match Gmail.ExpandTilde env ExpandEnv downloadDir with
      | Err err => ((w1, calls'), Err err)
      | Ok dir =>
          let w2 := add_events w1 [EvMkdirAll dir 493] in
          match MkdirAll_error env dir with
          | Some err => ((w2, calls'), Err ("error creating download directory: " +:+ err))
          | None =>
              match processAttachments env messageID (Payload msg) dir (w2, 0%Z) with
              | ((w3, count), Ok _) =>
                  ((add_events w3 [download_report mark count dir], calls'), Ok tt)
              | ((w3, count), Err err) => ((w3, calls'), Err err)
              end
          end
      end
  end.

(** The last event is [e] in one trace and [e'] in the other. *)
Definition differ_in_last (t t' : list Event) (e e' : Event) : Prop :=
  exists before, t = before ++ [e] /\ t' = before ++ [e'].

(** * Properties *)

(** ** Running the effect monad *)

Section Running.
Context {S A B : Type}.

Lemma bind_Ok (m : M S A) (k : A -> M S B) s s' a :
  m s = (s', Ok a) -> (m ≫= k) s = k a s'.
Proof. intros H. unfold mbind, M_bind. now rewrite H. Qed.

Lemma bind_Err (m : M S A) (k : A -> M S B) s s' e :
  m s = (s', Err e) -> (m ≫= k) s = (s', Err e).
Proof. intros H. unfold mbind, M_bind. now rewrite H. Qed.


Lemma wrapping_Ok prefix (m : M S A) s s' a :
  m s = (s', Ok a) -> wrapping prefix m s = (s', Ok a).
Proof. intros H. unfold wrapping. now rewrite H. Qed.

End Running.

Lemma with_count_run {A} (m : M World A) w w' r count :
  m w = (w', r) -> with_count m (w, count) = ((w', count), r).
Proof. intros H. unfold with_count. simpl. now rewrite H. Qed.

Lemma emit_run (e : Event) (w : World) : emit e w = (add_events w [e], Ok tt).
Proof. reflexivity. Qed.

(** ** The base64 codec: decoding inverts encoding *)

Module Base64Facts.
Import Base64.

(** Linear arithmetic with division and remainder by constants. *)
Ltac divmod_lia := zify; Z.to_euclidean_division_equations; lia.

Lemma lor_disjoint (a y k : N) :
  (a mod 2 ^ k = 0)%N -> (y < 2 ^ k)%N -> N.lor a y = (a + y)%N.
Proof.
  intros Ha Hy.
  assert (Hland : N.land a y = 0%N).
  { apply N.bits_inj. intros n. rewrite N.land_spec, N.bits_0.
    destruct (N.lt_ge_cases n k) as [Hlt | Hge].
    - assert (Hq : a = (a / 2 ^ k * 2 ^ k)%N).
      { rewrite (N.div_mod a (2 ^ k)) at 1 by (apply N.pow_nonzero; discriminate).
        rewrite Ha. lia. }
      rewrite Hq, N.mul_pow2_bits_low by exact Hlt. reflexivity.
    - rewrite <- (N.mod_small y (2 ^ k)) by exact Hy.
      rewrite N.mod_pow2_bits_high by exact Hge. apply andb_false_r. }
  rewrite <- N.lxor_lor by exact Hland. symmetry. now apply N.add_nocarry_lxor.
Qed.

(** The arithmetic reading of the bit operations. *)
Lemma six_bits (val k : N) :
  N.land (N.shiftr val k) 63 = ((val / 2 ^ k) mod 64)%N.
Proof.
  rewrite N.shiftr_div_pow2. change 63%N with (N.ones 6). now rewrite N.land_ones.
Qed.

Lemma byte_of_eq (val k : N) : byte_of val k = ((val / 2 ^ k) mod 256)%N.
Proof.
  unfold byte_of. rewrite N.shiftr_div_pow2. change 255%N with (N.ones 8).
  now rewrite N.land_ones.
Qed.

Lemma assemble_eq (d0 d1 d2 d3 : N) :
  (d1 < 64)%N -> (d2 < 64)%N -> (d3 < 64)%N ->
  assemble d0 d1 d2 d3 = (d0 * 262144 + d1 * 4096 + d2 * 64 + d3)%N.
Proof.
  intros H1 H2 H3. unfold assemble. rewrite !N.shiftl_mul_pow2.
  change (2 ^ 18)%N with 262144%N. change (2 ^ 12)%N with 4096%N.
  change (2 ^ 6)%N with 64%N.
  rewrite (lor_disjoint (d0 * 262144) (d1 * 4096) 18)
    by (change (2 ^ 18)%N with 262144%N; divmod_lia).
  rewrite (lor_disjoint (_ + d1 * 4096) (d2 * 64) 12)
    by (change (2 ^ 12)%N with 4096%N; divmod_lia).
  rewrite (lor_disjoint (_ + d2 * 64) d3 6)
    by (change (2 ^ 6)%N with 64%N; divmod_lia).
  reflexivity.
Qed.

Lemma pack3_eq (b0 b1 b2 : N) :
  (b1 < 256)%N -> (b2 < 256)%N ->
  N.lor (N.lor (N.shiftl b0 16) (N.shiftl b1 8)) b2 = (b0 * 65536 + b1 * 256 + b2)%N.
Proof.
  intros H1 H2. rewrite !N.shiftl_mul_pow2.
  change (2 ^ 16)%N with 65536%N. change (2 ^ 8)%N with 256%N.
  rewrite (lor_disjoint (b0 * 65536) (b1 * 256) 16)
    by (change (2 ^ 16)%N with 65536%N; divmod_lia).
  rewrite (lor_disjoint (_ + b1 * 256) b2 8)
    by (change (2 ^ 8)%N with 256%N; divmod_lia).
  reflexivity.
Qed.

(** A full quantum: the four sextets of three bytes give the bytes back. *)
Lemma quantum3 (b0 b1 b2 : N) :
  (b0 < 256)%N -> (b1 < 256)%N -> (b2 < 256)%N ->
  let val := N.lor (N.lor (N.shiftl b0 16) (N.shiftl b1 8)) b2 in
  let d k := N.land (N.shiftr val k) 63 in
  let val' := assemble (d 18%N) (d 12%N) (d 6%N) (d 0%N) in
  byte_of val' 16 = b0 /\ byte_of val' 8 = b1 /\ byte_of val' 0 = b2.
Proof.
  intros H0 H1 H2 val d val'. unfold val', d, val.
  rewrite pack3_eq by assumption. rewrite !six_bits.
  rewrite assemble_eq by (apply N.mod_lt; discriminate).
  rewrite !byte_of_eq.
  change (2 ^ 18)%N with 262144%N. change (2 ^ 16)%N with 65536%N.
  change (2 ^ 12)%N with 4096%N. change (2 ^ 8)%N with 256%N.
  change (2 ^ 6)%N with 64%N. change (2 ^ 0)%N with 1%N.
  repeat split; divmod_lia.
Qed.

(** The last quantum of two bytes: three sextets and one padding. *)
Lemma quantum2 (b0 b1 : N) :
  (b0 < 256)%N -> (b1 < 256)%N ->
  let val := N.lor (N.shiftl b0 16) (N.shiftl b1 8) in
  let d k := N.land (N.shiftr val k) 63 in
  let val' := assemble (d 18%N) (d 12%N) (d 6%N) 0 in
  byte_of val' 16 = b0 /\ byte_of val' 8 = b1.
Proof.
  intros H0 H1 val d val'. unfold val', d, val.
  rewrite <- (N.lor_0_r (N.lor _ _)).
  rewrite pack3_eq by (assumption || reflexivity). rewrite !six_bits.
  rewrite assemble_eq by (try (apply N.mod_lt; discriminate); reflexivity).
  rewrite !byte_of_eq.
  change (2 ^ 18)%N with 262144%N. change (2 ^ 16)%N with 65536%N.
  change (2 ^ 12)%N with 4096%N. change (2 ^ 8)%N with 256%N.
  change (2 ^ 6)%N with 64%N.
  repeat split; divmod_lia.
Qed.

(** The last quantum of one byte: two sextets and two paddings. *)
Lemma quantum1 (b0 : N) :
  (b0 < 256)%N ->
  let val := N.shiftl b0 16 in
  let d k := N.land (N.shiftr val k) 63 in
  byte_of (assemble (d 18%N) (d 12%N) 0 0) 16 = b0.
Proof.
  intros H0 val d. unfold d, val.
  rewrite N.shiftl_mul_pow2. rewrite !six_bits.
  rewrite assemble_eq by (try (apply N.mod_lt; discriminate); reflexivity).
  rewrite !byte_of_eq.
  change (2 ^ 18)%N with 262144%N. change (2 ^ 16)%N with 65536%N.
  change (2 ^ 12)%N with 4096%N.
  divmod_lia.
Qed.

Lemma alphabet_table : forallb alphabet_ok (map N.of_nat (seq 0 64)) = true.
Proof. vm_compute. reflexivity. Qed.

Lemma alphabet_ok_lt (v : N) : (v < 64)%N -> alphabet_ok v = true.
Proof.
  intros Hv. pose proof alphabet_table as H. rewrite forallb_forall in H.
  apply H. apply in_map_iff. exists (N.to_nat v). split; [apply N2Nat.id |].
  apply in_seq. lia.
Qed.

Lemma sextet_decodeMap (val k : N) :
  decodeMap (sextet val k) = Some (N.land (N.shiftr val k) 63).
Proof.
  unfold sextet. set (v := N.land (N.shiftr val k) 63).
  assert (Hv : (v < 64)%N).
  { unfold v. rewrite six_bits. apply N.mod_lt. discriminate. }
  apply alphabet_ok_lt in Hv. unfold alphabet_ok in Hv.
  apply andb_true_iff in Hv as [Hv _]. apply andb_true_iff in Hv as [Hv _].
  destruct (decodeMap (encode_at v)) as [v' |]; [| discriminate].
  apply N.eqb_eq in Hv. now subst.
Qed.

Lemma sextet_not_newline (val k : N) : is_newline (sextet val k) = false.
Proof.
  unfold sextet. set (v := N.land (N.shiftr val k) 63).
  assert (Hv : (v < 64)%N).
  { unfold v. rewrite six_bits. apply N.mod_lt. discriminate. }
  apply alphabet_ok_lt in Hv. unfold alphabet_ok in Hv.
  apply andb_true_iff in Hv as [Hv _]. apply andb_true_iff in Hv as [_ Hv].
  now apply negb_true_iff in Hv.
Qed.

(** Lists of bytes, three at a time. *)
Lemma list_ind3 {A} (P : list A -> Prop) :
  P [] -> (forall a, P [a]) -> (forall a b, P [a; b]) ->
  (forall a b c l, P l -> P (a :: b :: c :: l)) ->
  forall l, P l.
Proof.
  intros H0 H1 H2 H3. fix IH 1.
  intros [| a [| b [| c l]]]; [exact H0 | apply H1 | apply H2 | apply H3, IH].
Qed.

Lemma decode_encode (bs : list N) :
  Forall (fun b => (b < 256)%N) bs -> decode (encode bs) = Some bs.
Proof.
  induction bs as [| b0 | b0 b1 | b0 b1 b2 bs IH] using list_ind3; intros Hb.
  - reflexivity.
  - apply Forall_cons_iff in Hb as [H0 _].
    cbn [encode decode]. rewrite !sextet_decodeMap.
    change (decodeMap padChar) with (@None N). cbn.
    now rewrite (quantum1 b0 H0).
  - apply Forall_cons_iff in Hb as [H0 Hb]. apply Forall_cons_iff in Hb as [H1 _].
    cbn [encode decode]. rewrite !sextet_decodeMap.
    change (decodeMap padChar) with (@None N). cbn.
    destruct (quantum2 b0 b1 H0 H1) as [E0 E1]. now rewrite E0, E1.
  - apply Forall_cons_iff in Hb as [H0 Hb]. apply Forall_cons_iff in Hb as [H1 Hb].
    apply Forall_cons_iff in Hb as [H2 Hb].
    cbn [encode decode]. rewrite !sextet_decodeMap. rewrite (IH Hb).
    destruct (quantum3 b0 b1 b2 H0 H1 H2) as (E0 & E1 & E2). cbn zeta.
    now rewrite E0, E1, E2.
Qed.

Lemma encode_no_newline (bs : list N) :
  List.filter (fun c => negb (is_newline c)) (encode bs) = encode bs.
Proof.
  induction bs as [| b0 | b0 b1 | b0 b1 b2 bs IH] using list_ind3;
    cbn [encode List.filter]; rewrite ?sextet_not_newline; cbn; try reflexivity.
  now rewrite IH.
Qed.

Lemma bytes_of_string_bounded (s : string) :
  Forall (fun b => (b < 256)%N) (bytes_of_string s).
Proof.
  unfold bytes_of_string. apply Forall_map.
  apply Forall_forall. intros a _. apply N_ascii_bounded.
Qed.

Lemma string_of_bytes_of_string (s : string) :
  string_of_bytes (bytes_of_string s) = s.
Proof.
  unfold string_of_bytes, bytes_of_string. rewrite map_map.
  rewrite (map_ext _ (fun a => a)) by apply ascii_N_embedding.
  rewrite map_id. apply string_of_list_ascii_of_string.
Qed.

(** Decoding what the encoder wrote gives the text back. *)
Lemma DecodeString_EncodeToString (s : string) :
  DecodeString (EncodeToString s) = Some s.
Proof.
  unfold DecodeString, EncodeToString.
  rewrite list_ascii_of_string_of_list_ascii, encode_no_newline.
  rewrite decode_encode by apply bytes_of_string_bounded.
  now rewrite string_of_bytes_of_string.
Qed.

End Base64Facts.

(** ** Header extraction *)

Lemma extractHeaders_snoc headers h :
  extractHeaders (headers ++ [h]) = extractHeaders_step (extractHeaders headers) h.
Proof. unfold extractHeaders. now rewrite fold_left_app. Qed.

Lemma Forall_snoc_name name (after : list MessagePartHeader) h :
  Forall (fun h' => Name h' <> name) after -> Name h <> name ->
  Forall (fun h' => Name h' <> name) (after ++ [h]).
Proof. intros Ha Hh. apply Forall_app; split; [exact Ha | now constructor]. Qed.

(** A header that the step leaves alone does not disturb the last
    occurrence found so far. *)
Lemma last_occurrence_snoc_other name headers h v :
  Name h <> name ->
  last_occurrence_or_empty name headers v ->
  last_occurrence_or_empty name (headers ++ [h]) v.
Proof.
  intros Hne [(before & h0 & after & -> & Hn & Hv & Hafter) | [Hall Hv]].
  - left. exists before, h0, (after ++ [h]). repeat split; try assumption.
    + now rewrite <- app_assoc.
    + now apply Forall_snoc_name.
  - right. split; [now apply Forall_snoc_name | exact Hv].
Qed.

Lemma last_occurrence_snoc_same name headers h :
  Name h = name -> last_occurrence_or_empty name (headers ++ [h]) (Value h).
Proof.
  intros Hn. left. exists headers, h, []. repeat split; [exact Hn | constructor].
Qed.

Lemma extractHeaders_both headers :
  last_occurrence_or_empty "Subject" headers (fst (extractHeaders headers))
  /\ last_occurrence_or_empty "From" headers (snd (extractHeaders headers)).
Proof.
  induction headers as [| h headers [IHs IHf]] using rev_ind.
  - split; right; split; constructor.
  - rewrite extractHeaders_snoc.
    destruct (extractHeaders headers) as [s f]; simpl in *.
    destruct (String.eqb_spec (Name h) "Subject") as [Hs | Hs].
    + simpl. split.
      * now apply last_occurrence_snoc_same.
      * apply last_occurrence_snoc_other; [rewrite Hs; discriminate | exact IHf].
    + destruct (String.eqb_spec (Name h) "From") as [Hf | Hf]; simpl; split.
      * now apply last_occurrence_snoc_other.
      * now apply last_occurrence_snoc_same.
      * now apply last_occurrence_snoc_other.
      * now apply last_occurrence_snoc_other.
Qed.

Lemma extractHeaders_step_other acc h :
  subject_or_from h = false -> extractHeaders_step acc h = acc.
Proof.
  unfold subject_or_from, extractHeaders_step. destruct acc as [s f].
  destruct (String.eqb (Name h) "Subject"); [discriminate |].
  destruct (String.eqb (Name h) "From"); [discriminate | reflexivity].
Qed.

Lemma fold_extractHeaders_filter headers acc :
  fold_left extractHeaders_step (List.filter subject_or_from headers) acc
  = fold_left extractHeaders_step headers acc.
Proof.
  revert acc. induction headers as [| h headers IH]; intros acc; [reflexivity |].
  simpl. destruct (subject_or_from h) eqn:E; simpl.
  - apply IH.
  - rewrite IH. now rewrite extractHeaders_step_other.
Qed.

(** C9. For every list of headers, [extractHeaders] returns as subject the
    value of the last header named exactly ["Subject"], as sender the value
    of the last header named exactly ["From"], the empty string for a name
    that does not occur, and the headers of every other name can be removed
    without changing the result. *)
Theorem extractHeaders_last_occurrence (headers : list MessagePartHeader) :
  last_occurrence_or_empty "Subject" headers (fst (extractHeaders headers))
  /\ last_occurrence_or_empty "From" headers (snd (extractHeaders headers))
  /\ extractHeaders (List.filter subject_or_from headers) = extractHeaders headers.
Proof.
  destruct (extractHeaders_both headers) as [Hs Hf].
  repeat split; try assumption.
  apply fold_extractHeaders_filter.
Qed.

(** The comparison of names is exact: a header named ["subject"] or
    ["FROM"] is not picked up. *)
Example extractHeaders_is_case_sensitive :
  extractHeaders [ mkHeader "Subject" "first"; mkHeader "subject" "lower";
                   mkHeader "From" "a@x.com"; mkHeader "Subject" "second";
                   mkHeader "FROM" "upper"; mkHeader "To" "b@x.com" ]
  = ("second", "a@x.com").
Proof. reflexivity. Qed.

(** ** Body extraction *)

Lemma getBody_own_Some part text :
  getBody_own part = Some text <-> decoded_payload part text.
Proof.
  unfold getBody_own, decoded_payload. split.
  - destruct (Body part) as [b |]; [| discriminate].
    destruct (String.eqb_spec (Data b) ""); simpl; [discriminate |].
    intros H. now exists b.
  - intros (b & -> & Hne & Hd).
    destruct (String.eqb_spec (Data b) ""); [contradiction | exact Hd].
Qed.

Lemma getBody_own_None part :
  getBody_own part = None <-> no_payload part.
Proof.
  unfold no_payload. split.
  - intros H text Hp. apply getBody_own_Some in Hp. congruence.
  - intros H. destruct (getBody_own part) as [text |] eqn:E; [| reflexivity].
    apply getBody_own_Some in E. now apply H in E.
Qed.

(** One turn of the loop over the sub-parts, in terms of [getBody_own]. *)
Lemma getBody_parts_cons p rest :
  getBody_parts (p :: rest)
  = if String.eqb (MimeType p) "text/plain"
    then match getBody_own p with
         | Some data => Some data
         | None => getBody_parts rest
         end
    else getBody_parts rest.
Proof.
  simpl. unfold getBody_own.
  destruct (String.eqb (MimeType p) "text/plain"); [| reflexivity].
  destruct (Body p) as [b |]; [| reflexivity].
  destruct (negb (String.eqb (Data b) "")); [| reflexivity].
  now destruct (Base64.DecodeString (Data b)).
Qed.

Lemma getBody_parts_skip before rest :
  Forall (fun c => is_text_plain c -> no_payload c) before ->
  getBody_parts (before ++ rest) = getBody_parts rest.
Proof.
  induction 1 as [| c before Hc _ IH]; [reflexivity |].
  rewrite <- app_comm_cons, getBody_parts_cons.
  destruct (String.eqb_spec (MimeType c) "text/plain") as [Ht | _]; [| exact IH].
  apply Hc, getBody_own_None in Ht. now rewrite Ht.
Qed.

Lemma getBody_parts_None parts :
  getBody_parts parts = None
  <-> Forall (fun c => is_text_plain c -> no_payload c) parts.
Proof.
  split.
  - induction parts as [| c parts IH]; [constructor |].
    rewrite getBody_parts_cons. unfold is_text_plain.
    destruct (String.eqb_spec (MimeType c) "text/plain") as [Ht | Hn].
    + destruct (getBody_own c) eqn:E; [discriminate |].
      intros H. constructor; [| now apply IH].
      intros _. now apply getBody_own_None.
    + intros H. constructor; [contradiction | now apply IH].
  - intros H. rewrite <- (app_nil_r parts). now rewrite getBody_parts_skip.
Qed.

Lemma getBody_parts_Some parts text :
  getBody_parts parts = Some text
  <-> exists before child after,
        parts = before ++ child :: after
        /\ Forall (fun c => is_text_plain c -> no_payload c) before
        /\ is_text_plain child /\ decoded_payload child text.
Proof.
  split.
  - induction parts as [| c parts IH]; [discriminate |].
    rewrite getBody_parts_cons. unfold is_text_plain in *.
    destruct (String.eqb_spec (MimeType c) "text/plain") as [Ht | Hn].
    + destruct (getBody_own c) as [data |] eqn:E.
      * intros [= ->]. exists [], c, parts. repeat split; try constructor; try assumption.
        now apply getBody_own_Some.
      * intros H. destruct (IH H) as (before & child & after & -> & Hb & Hc & Hd).
        exists (c :: before), child, after. repeat split; try assumption.
        constructor; [| exact Hb]. intros _. now apply getBody_own_None.
    + intros H. destruct (IH H) as (before & child & after & -> & Hb & Hc & Hd).
      exists (c :: before), child, after. repeat split; try assumption.
      constructor; [contradiction | exact Hb].
  - intros (before & child & after & -> & Hb & Hc & Hd).
    rewrite getBody_parts_skip by exact Hb.
    rewrite getBody_parts_cons. unfold is_text_plain in Hc. rewrite Hc. simpl.
    apply getBody_own_Some in Hd. now rewrite Hd.
Qed.

(** [getBody] returns the selected payload when there is one. *)
Lemma getBody_selected part text :
  selected_payload part text -> getBody part = text.
Proof.
  unfold getBody. intros [Hown | [Hnone Hchild]].
  - apply getBody_own_Some in Hown. now rewrite Hown.
  - apply getBody_own_None in Hnone. rewrite Hnone.
    apply getBody_parts_Some in Hchild. now rewrite Hchild.
Qed.

Lemma getBody_nothing part :
  nothing_selected part -> getBody part = no_text_content.
Proof.
  unfold getBody. intros [Hown Hparts].
  apply getBody_own_None in Hown. rewrite Hown.
  apply getBody_parts_None in Hparts. now rewrite Hparts.
Qed.

(** Either a payload is selected or nothing is; never both. *)
Lemma selected_or_nothing part :
  (exists text, selected_payload part text) \/ nothing_selected part.
Proof.
  unfold selected_payload, nothing_selected.
  destruct (getBody_own part) as [text |] eqn:Eo.
  - left. exists text. left. now apply getBody_own_Some.
  - apply getBody_own_None in Eo.
    destruct (getBody_parts (Parts part)) as [text |] eqn:Ep.
    + left. exists text. right. split; [exact Eo |]. now apply getBody_parts_Some.
    + right. split; [exact Eo |]. now apply getBody_parts_None.
Qed.

(** C7. For every part: when its own inline payload exists and decodes,
    [getBody] returns the decoded data; otherwise it returns the decoded
    payload of the first immediate [text/plain] child whose payload exists
    and decodes; otherwise it returns ["[No text content]"].  A payload that
    does not decode counts as absent at each step, and the function always
    returns a text. *)
Theorem getBody_cases (part : MessagePart) :
  (forall text, decoded_payload part text -> getBody part = text)
  /\ (forall before child after text,
        no_payload part ->
        Parts part = before ++ child :: after ->
        Forall (fun c => is_text_plain c -> no_payload c) before ->
        is_text_plain child -> decoded_payload child text ->
        getBody part = text)
  /\ (no_payload part ->
      Forall (fun c => is_text_plain c -> no_payload c) (Parts part) ->
      getBody part = no_text_content).
Proof.
  repeat split.
  - intros text H. apply getBody_selected. now left.
  - intros before child after text Hn Hp Hb Hc Hd.
    apply getBody_selected. right. split; [exact Hn |].
    now exists before, child, after.
  - intros Hn Hp. now apply getBody_nothing.
Qed.

Lemma getBody_cases_witness : getBody damaged_first_message = "Hi".
Proof.
  apply (proj1 (proj2 (getBody_cases damaged_first_message))
           [ leaf "text/plain" "" "" "*not base64*"; leaf "text/html" "" "" "PGI-SGk8L2I-" ]
           (leaf "text/plain" "" "" "SGk=") [] "Hi").
  - intros text (b & Hb & _). discriminate Hb.
  - reflexivity.
  - constructor.
    + intros _ text (b & Hb & _ & Hd). injection Hb as <-.
      vm_compute in Hd. discriminate Hd.
    + constructor; [| constructor]. intros Ht. discriminate Ht.
  - reflexivity.
  - exists (mkBody "" "SGk=" 0). repeat split. discriminate.
Defined.

Lemma getBody_parts_without_grandchildren parts :
  getBody_parts
    (map (fun c => mkPart (Body c) (Filename c) (Headers c) (MimeType c) (PartId c) []) parts)
  = getBody_parts parts.
Proof.
  induction parts as [| c parts IH]; [reflexivity |].
  simpl. now rewrite IH.
Qed.

(** The claim of C3 fails on a message whose only child is an HTML part:
    the child is in the scope and has a payload that decodes, and [getBody]
    returns the sentinel all the same. *)
Lemma html_only_refutes_scope_reading : ~ sentinel_iff_scope_empty html_only_message.
Proof.
  intros [Hfwd _].
  assert (Hs : getBody html_only_message = no_text_content) by reflexivity.
  specialize (Hfwd Hs (leaf "text/html" "" "" "PGI-SGk8L2I-")).
  apply (Hfwd (or_intror (or_introl eq_refl)) "<b>Hi</b>").
  exists (mkBody "" "PGI-SGk8L2I-" 0). repeat split. discriminate.
Qed.

(** C3, amended. [getBody] returns the sentinel exactly when neither the
    part nor any of its immediate [text/plain] children has an inline
    payload that decodes, or when the payload it selects is the sentinel
    text itself; children of another MIME type are not looked at, and the
    parts below the immediate children never change the result. *)
Theorem getBody_sentinel_scope (part : MessagePart) :
  (getBody part = no_text_content
   <-> nothing_selected part \/ selected_payload part no_text_content)
  /\ getBody (without_grandchildren part) = getBody part.
Proof.
  split.
  - split.
    + intros Hs. destruct (selected_or_nothing part) as [[text Ht] | Hn].
      * right. rewrite <- Hs. now rewrite (getBody_selected part text Ht).
      * now left.
    + intros [Hn | Ht]; [now apply getBody_nothing | now apply getBody_selected].
  - unfold getBody, without_grandchildren, getBody_own. simpl.
    now rewrite getBody_parts_without_grandchildren.
Qed.

(** A readable [text/plain] part two levels down is not found. *)
Example getBody_ignores_grandchildren :
  getBody sample_message = no_text_content
  /\ getBody (container "multipart/mixed" [leaf "text/plain" "" "" "SGk="]) = "Hi".
Proof. split; reflexivity. Qed.

(** ** Attachment traversal *)

(** Induction on the tree of parts: the sub-parts satisfy the property. *)
Lemma MessagePart_ind' (P : MessagePart -> Prop) :
  (forall b f h m i parts, Forall P parts -> P (mkPart b f h m i parts)) ->
  forall part, P part.
Proof.
  intros step.
  fix IH 1. intros [b f h m i parts]. apply step.
  induction parts as [| p parts IHparts]; constructor; [apply IH | exact IHparts].
Qed.

Lemma processAttachments_unfold env messageID part dir :
  processAttachments env messageID part dir
  = (download_part env messageID part dir;;
     processAttachments_range env messageID dir (Parts part)).
Proof.
  destruct part as [b f h m i parts]. simpl.
  unfold download_part. simpl.
  f_equal.
  induction parts as [| p parts IH]; [reflexivity |].
  simpl. now rewrite IH.
Qed.

Lemma document_order_unfold part :
  document_order part = part :: flat_map document_order (Parts part).
Proof.
  now destruct part.
Qed.

Lemma attachment_parts_unfold part :
  attachment_parts part
  = (if is_attachment part then [part] else [])
    ++ flat_map attachment_parts (Parts part).
Proof.
  unfold attachment_parts at 1. rewrite document_order_unfold. simpl.
  assert (H : List.filter is_attachment (flat_map document_order (Parts part))
              = flat_map attachment_parts (Parts part)).
  { induction (Parts part) as [| p parts IH]; [reflexivity |].
    simpl. now rewrite List.filter_app, IH. }
  rewrite H. now destruct (is_attachment part).
Qed.

Lemma download_part_skip env messageID part dir :
  is_attachment part = false ->
  download_part env messageID part dir = ret tt.
Proof.
  unfold is_attachment, attachment_id, download_part.
  destruct (String.eqb (Filename part) ""); simpl; [reflexivity |].
  destruct (Body part) as [b |]; [| reflexivity].
  now intros ->.
Qed.

Lemma os_WriteFile_Ok env name data w :
  writable_at env w name = true ->
  exists p,
    os_WriteFile env name data 420 w
    = (mkWorld (<[name := mkFile p data]> (files w)) (listening w)
         (trace w ++ [EvWriteFile name data 420]), Ok tt)
    /\ N.testbit p 7 = true.
Proof.
  unfold writable_at, os_WriteFile. intros Hw.
  erewrite bind_Ok by reflexivity.
  unfold os_OpenFile_trunc, file_Write, mbind, M_bind. simpl.
  destruct (files w !! name) as [f |] eqn:Ef.
  - unfold may_open. rewrite Hw. simpl. rewrite lookup_insert_eq. simpl.
    exists (perm f). split; [| exact Hw]. now rewrite insert_insert_eq.
  - apply bool_decide_eq_true in Hw. rewrite Hw. simpl.
    rewrite lookup_insert_eq. simpl.
    exists 420%N. split; [| reflexivity]. now rewrite insert_insert_eq.
Qed.

Lemma keeps_writable_insert env w name p data l tr :
  N.testbit p 7 = true ->
  keeps_writable env w (mkWorld (<[name := mkFile p data]> (files w)) l tr).
Proof.
  intros Hp name'. unfold writable_at. simpl.
  destruct (decide (name = name')) as [<- | Hne].
  - now rewrite lookup_insert_eq.
  - now rewrite lookup_insert_ne.
Qed.

Lemma download_part_run env messageID part dir w count data :
  is_attachment part = true ->
  fetched env messageID part = Some data ->
  writable_at env w (target_path dir part) = true ->
  exists w',
    download_part env messageID part dir (w, count) = ((w', wrap_int (count + 1)), Ok tt)
    /\ trace w' = trace w ++ download_actions env messageID dir part
    /\ keeps_writable env w w'.
Proof.
  unfold is_attachment, download_part.
  intros Ha Hf Hw.
  assert (Hid : exists b, Body part = Some b /\ attachment_id part = AttachmentId b).
  { unfold attachment_id in *. destruct (Body part) as [b |]; [now exists b |].
    now rewrite andb_false_r in Ha. }
  destruct Hid as (b & Eb & Hid).
  apply andb_true_iff in Ha as [Hname Hatt].
  rewrite Hname, Eb. simpl. rewrite <- Hid, Hatt.
  unfold fetched in Hf.
  destruct (Attachments_Get env messageID (attachment_id part)) as [raw | e] eqn:Eg;
    [| discriminate].
  destruct (os_WriteFile_Ok env (target_path dir part) data
              (mkWorld (files w) (listening w)
                 ((trace w ++ [Stderr ("Downloading: " +:+ Filename part +:+ LF)])
                  ++ [EvAttachmentsGet "me" messageID (attachment_id part)])))
    as (p & Hwrite & Hp).
  { exact Hw. }
  erewrite bind_Ok by (apply with_count_run; reflexivity).
  erewrite bind_Ok.
  2:{ apply wrapping_Ok, with_count_run. unfold do_Attachments_Get.
      erewrite bind_Ok by reflexivity. unfold outcome. rewrite Eg. reflexivity. }
  erewrite bind_Ok.
  2:{ apply wrapping_Ok. unfold decode_base64. rewrite Hf. reflexivity. }
  erewrite bind_Ok.
  2:{ apply wrapping_Ok, with_count_run. exact Hwrite. }
  erewrite bind_Ok by (apply with_count_run; reflexivity).
  unfold incr_count. simpl.
  eexists. split; [reflexivity |]. simpl. split.
  - unfold download_actions, fetched. rewrite Eg, Hf. simpl.
    now rewrite <- !app_assoc.
  - now apply keeps_writable_insert.
Qed.

Lemma keeps_writable_refl env w : keeps_writable env w w.
Proof. now intros name. Qed.

Lemma keeps_writable_trans env w1 w2 w3 :
  keeps_writable env w1 w2 -> keeps_writable env w2 w3 -> keeps_writable env w1 w3.
Proof. intros H12 H23 name H. now apply H23, H12. Qed.

Lemma obtainable_mono env w w' messageID dir l :
  keeps_writable env w w' ->
  forallb (obtainable env w messageID dir) l = true ->
  forallb (obtainable env w' messageID dir) l = true.
Proof.
  intros Hk. rewrite !forallb_forall. intros H p Hp.
  specialize (H p Hp). unfold obtainable in *.
  apply andb_true_iff in H as [Hf Hw]. rewrite Hf. simpl. now apply Hk.
Qed.

Lemma count_after_app a b count :
  count_after b (count_after a count) = count_after (a + b) count.
Proof. unfold count_after. rewrite Nat.add_comm. now rewrite Nat.iter_add. Qed.

Lemma processAttachments_range_run env messageID dir parts :
  Forall (fun part => forall w count,
            forallb (obtainable env w messageID dir) (attachment_parts part) = true ->
            downloaded env messageID dir (attachment_parts part) w count
              (processAttachments env messageID part dir (w, count))) parts ->
  forall w count,
    forallb (obtainable env w messageID dir) (flat_map attachment_parts parts) = true ->
    downloaded env messageID dir (flat_map attachment_parts parts) w count
      (processAttachments_range env messageID dir parts (w, count)).
Proof.
  induction 1 as [| part parts Hpart _ IH]; intros w count Hall.
  - exists w. simpl. repeat split; [now rewrite app_nil_r | apply keeps_writable_refl].
  - simpl in Hall. rewrite forallb_app in Hall. apply andb_true_iff in Hall as [H1 H2].
    destruct (Hpart w count H1) as (w1 & Hrun1 & Htr1 & Hk1).
    destruct (IH w1 (count_after (length (attachment_parts part)) count)
                (obtainable_mono _ _ _ _ _ _ Hk1 H2)) as (w2 & Hrun2 & Htr2 & Hk2).
    exists w2. simpl. erewrite bind_Ok by exact Hrun1. rewrite Hrun2.
    repeat split.
    + now rewrite length_app, count_after_app.
    + now rewrite Htr2, Htr1, flat_map_app, app_assoc.
    + now apply keeps_writable_trans with w1.
Qed.

Lemma processAttachments_run env messageID dir part :
  forall w count,
    forallb (obtainable env w messageID dir) (attachment_parts part) = true ->
    downloaded env messageID dir (attachment_parts part) w count
      (processAttachments env messageID part dir (w, count)).
Proof.
  induction part as [b f h m i parts IH] using MessagePart_ind'.
  intros w count Hall.
  set (part := mkPart b f h m i parts) in *.
  rewrite processAttachments_unfold.
  rewrite attachment_parts_unfold in *.
  destruct (is_attachment part) eqn:Ea.
  - simpl in Hall. apply andb_true_iff in Hall as [Hp Hrest].
    unfold obtainable in Hp. apply andb_true_iff in Hp as [Hf Hw].
    destruct (fetched env messageID part) as [data |] eqn:Ef; [| discriminate].
    destruct (download_part_run env messageID part dir w count data Ea Ef Hw)
      as (w1 & Hrun1 & Htr1 & Hk1).
    destruct (processAttachments_range_run env messageID dir parts IH w1
                (wrap_int (count + 1)) (obtainable_mono _ _ _ _ _ _ Hk1 Hrest))
      as (w2 & Hrun2 & Htr2 & Hk2).
    exists w2. erewrite bind_Ok by exact Hrun1. simpl Parts. rewrite Hrun2.
    repeat split.
    + unfold count_after. simpl length. now rewrite Nat.iter_succ_r.
    + rewrite Htr2, Htr1. simpl. now rewrite <- !app_assoc.
    + now apply keeps_writable_trans with w1.
  - simpl in Hall |- *.
    rewrite download_part_skip by exact Ea.
    erewrite bind_Ok by reflexivity.
    now apply processAttachments_range_run.
Qed.











(** The first failure ends the traversal: the second attachment of this
    message is never asked for, and nothing is written. *)
Example processAttachments_stops_at_first_error :
  let run := processAttachments (sample_env Timeout None) "m1" broken_first_message
               "/tmp/dl" (fresh_world, 0%Z) in
  snd run = Err "error downloading attachment x.pdf: googleapi: Error 404"
  /\ List.filter is_download (trace (fst (fst run))) = [EvAttachmentsGet "me" "m1" "att-9"]
  /\ List.filter is_write (trace (fst (fst run))) = []
  /\ snd (fst run) = 0%Z.
Proof. repeat split. Qed.

(** ** The [send] command *)

Lemma append_assoc (a b c : string) : (a +:+ b) +:+ c = a +:+ (b +:+ c).
Proof.
  induction a as [| x a IH]; [reflexivity |].
  change (String x ((a +:+ b) +:+ c) = String x (a +:+ (b +:+ c))). now rewrite IH.
Qed.

Lemma send_message_mime_text (flags : SendFlags) :
  send_message flags = mime_text flags.
Proof.
  unfold send_message, mime_text, header_lines, WriteString.
  destruct (decide (cc flags = "")) as [Hcc | Hcc];
    destruct (decide (bcc flags = "")) as [Hbcc | Hbcc];
    try rewrite Hcc; try rewrite Hbcc;
    try (apply String.eqb_neq in Hcc; rewrite Hcc);
    try (apply String.eqb_neq in Hbcc; rewrite Hbcc);
    rewrite ?String.eqb_refl; cbn [negb fold_right app];
    rewrite ?append_assoc; reflexivity.
Qed.

Lemma runSend_run env flags w w1 service :
  getGmailService env w = (w1, Ok service) ->
  let raw := Base64.EncodeToString (send_message flags) in
  runSend env flags w
  = match Messages_Send env raw with
    | None =>
        (add_events w1
           [ EvMessagesSend "me" raw;
             Stderr (check_mark +:+ " Email sent successfully to " +:+ to flags +:+ LF) ],
         Ok tt)
    | Some err =>
        (add_events w1 [EvMessagesSend "me" raw], Err ("error sending email: " +:+ err))
    end.
Proof.
  intros Hs raw. unfold runSend. erewrite bind_Ok by exact Hs. fold raw.
  unfold do_Messages_Send.
  destruct (Messages_Send env raw) as [err |] eqn:E.
  - erewrite bind_Err; [reflexivity |].
    unfold wrapping. erewrite bind_Ok by apply emit_run. reflexivity.
  - erewrite bind_Ok.
    2:{ apply wrapping_Ok. erewrite bind_Ok by apply emit_run. reflexivity. }
    rewrite emit_run. unfold add_events. simpl. now rewrite <- app_assoc.
Qed.

(** Nothing is sent when no service could be obtained. *)
Lemma runSend_without_service env flags w w1 e :
  getGmailService env w = (w1, Err e) -> runSend env flags w = (w1, Err e).
Proof. intros Hs. unfold runSend. now erewrite bind_Err by exact Hs. Qed.

(** C4. Once the service is there, [runSend] hands to the send call the
    base64url encoding of the header lines To, Cc (when not empty), Bcc
    (when not empty) and Subject, each ended by CR LF, then an empty line,
    then the body; decoding it gives that text back.  For [--to a@x.com
    --subject Hi --body Hello] without cc and bcc the text is exactly
    ["To: a@x.com\r\nSubject: Hi\r\n\r\nHello"]. *)
Theorem runSend_raw_payload
    (env : Env) (flags : SendFlags) (w w1 : World) (service : Service) :
  getGmailService env w = (w1, Ok service) ->
  let raw := Base64.EncodeToString (mime_text flags) in
  runSend env flags w
  = match Messages_Send env raw with
    | None =>
        (add_events w1
           [ EvMessagesSend "me" raw;
             Stderr (check_mark +:+ " Email sent successfully to " +:+ to flags +:+ LF) ],
         Ok tt)
    | Some err =>
        (add_events w1 [EvMessagesSend "me" raw], Err ("error sending email: " +:+ err))
    end
  /\ Base64.DecodeString raw = Some (mime_text flags)
  /\ (to flags = "a@x.com" -> subject flags = "Hi" -> body flags = "Hello" ->
      cc flags = "" -> bcc flags = "" ->
      mime_text flags = "To: a@x.com" +:+ CRLF +:+ "Subject: Hi" +:+ CRLF +:+ CRLF +:+ "Hello"
      /\ raw = "VG86IGFAeC5jb20NClN1YmplY3Q6IEhpDQoNCkhlbGxv").
Proof.
  intros Hs raw. split; [| split].
  - unfold raw. rewrite <- send_message_mime_text.
    exact (runSend_run env flags w w1 service Hs).
  - apply Base64Facts.DecodeString_EncodeToString.
  - intros Hto Hsub Hbody Hcc Hbcc.
    assert (Hm : mime_text flags
                 = "To: a@x.com" +:+ CRLF +:+ "Subject: Hi" +:+ CRLF +:+ CRLF +:+ "Hello").
    { unfold mime_text, header_lines. now rewrite Hto, Hsub, Hbody, Hcc, Hbcc. }
    split; [exact Hm |]. unfold raw. now rewrite Hm.
Qed.

Lemma runSend_raw_payload_witness :
  runSend (sample_env Timeout None) plain_send signed_in_world
  = (add_events signed_in_world
       [ EvMessagesSend "me" "VG86IGFAeC5jb20NClN1YmplY3Q6IEhpDQoNCkhlbGxv";
         Stderr (check_mark +:+ " Email sent successfully to a@x.com" +:+ LF) ],
     Ok tt)
  /\ Base64.DecodeString "VG86IGFAeC5jb20NClN1YmplY3Q6IEhpDQoNCkhlbGxv"
     = Some ("To: a@x.com" +:+ CRLF +:+ "Subject: Hi" +:+ CRLF +:+ CRLF +:+ "Hello").
Proof.
  destruct (runSend_raw_payload (sample_env Timeout None) plain_send signed_in_world
              signed_in_world
              (mkService (mkClient sample_config (Some sample_token))) eq_refl)
    as (Hrun & Hdec & Hex).
  destruct (Hex eq_refl eq_refl eq_refl eq_refl eq_refl) as [Hm Hraw].
  rewrite Hraw in Hrun, Hdec. rewrite Hm in Hdec. split; [exact Hrun | exact Hdec].
Defined.

(** C5. Two invocations of [send] that agree on to, cc, bcc, subject and
    body behave alike whatever their [--attach] values are: the same raw
    message is submitted, and the same result comes back. *)
Theorem runSend_ignores_attach (env : Env) (f1 f2 : SendFlags) (w : World) :
  to f1 = to f2 -> cc f1 = cc f2 -> bcc f1 = bcc f2 ->
  subject f1 = subject f2 -> body f1 = body f2 ->
  runSend env f1 w = runSend env f2 w
  /\ send_message f1 = send_message f2.
Proof.
  intros Hto Hcc Hbcc Hsub Hbody.
  assert (Hm : send_message f1 = send_message f2).
  { unfold send_message. now rewrite Hto, Hcc, Hbcc, Hsub, Hbody. }
  split; [| exact Hm]. unfold runSend. now rewrite Hm, Hto.
Qed.

Lemma runSend_ignores_attach_witness :
  attach plain_send <> attach send_with_attachments
  /\ runSend (sample_env Timeout None) plain_send signed_in_world
     = runSend (sample_env Timeout None) send_with_attachments signed_in_world.
Proof.
  split; [discriminate |].
  exact (proj1 (runSend_ignores_attach (sample_env Timeout None) plain_send
                  send_with_attachments signed_in_world
                  eq_refl eq_refl eq_refl eq_refl eq_refl)).
Defined.

(** ** The authorization flow *)

Lemma getTokenFromWeb_run env config w :
  getTokenFromWeb env config w = after_launch env config (launched env config w).
Proof.
  unfold getTokenFromWeb, after_launch, launched, launch_events, listener_up.
  fold (redirected config).
  unfold mbind at 1 2 3 4. unfold M_bind at 1 2 3 4. unfold start_server, emit. simpl.
  destruct (browser_command (GOOS env) _) as [[name args] |]; simpl;
    rewrite <- ?app_assoc; reflexivity.
Qed.

(** The flow after a callback that carries a code. *)
Lemma after_launch_code env config w r :
  arrival env = Callback r -> Query_Get r "code" <> "" ->
  after_launch env config w
  = let code := Query_Get r "code" in
    let w1 := stopped (add_events w [EvRespond "text/html" success_page; EvShutdown]) in
    match Exchange env (redirected config) code with
    | Ok tok =>
        (add_events w1 [EvExchange code; Stdout (LF +:+ "Authentication successful!" +:+ LF)],
         Ok (redirected config, tok))
    | Err e =>
        (add_events w1 [EvExchange code], Err ("unable to retrieve token from web: " +:+ e))
    end.
Proof.
  intros Ha Hcode. apply String.eqb_neq in Hcode.
  unfold after_launch, await_code, oauth2callback. rewrite Ha, Hcode.
  unfold mbind, M_bind, wrapping, do_Exchange, server_Shutdown, emit, outcome, mbind, M_bind,
    add_events, stopped. simpl.
  destruct (Exchange env (redirected config) (Query_Get r "code")); simpl;
    rewrite <- ?app_assoc; reflexivity.
Qed.

Lemma after_launch_timeout env config w :
  arrival env = Timeout ->
  after_launch env config w = (w, Err "authentication timeout after 3 minutes").
Proof. intros Ha. unfold after_launch, await_code. rewrite Ha. reflexivity. Qed.

Lemma after_launch_no_code env config w r :
  arrival env = Callback r -> Query_Get r "code" = "" ->
  after_launch env config w = (w, Err "no code in callback").
Proof.
  intros Ha Hc. unfold after_launch, await_code, oauth2callback. rewrite Ha, Hc. reflexivity.
Qed.

(** The claim of C1 fails: a callback with a code and a state that the flow
    never issued is accepted, and its code is exchanged for a token. *)
Lemma forged_state_is_exchanged :
  ~ state_mismatch_fails (sample_env (Callback forged_callback) None) sample_config fresh_world.
Proof.
  intros H.
  destruct (H forged_callback eq_refl) as [[err Herr] _]; [discriminate | discriminate |].
  vm_compute in Herr. discriminate Herr.
Qed.

(** C1, amended. The callback handler reads the [code] parameter only.  For
    every callback that carries a non-empty code, whatever its [state]
    parameter is, the flow answers the browser, shuts the listener down and
    exchanges the code: it returns the token of the exchange, or the error
    of the exchange.  The state placed in the authorization request is the
    fixed text ["state-token"]. *)
Theorem callback_code_is_exchanged_whatever_state env config w r :
  arrival env = Callback r ->
  Query_Get r "code" <> "" ->
  let code := Query_Get r "code" in
  let w1 := stopped (add_events (launched env config w)
                       [EvRespond "text/html" success_page; EvShutdown]) in
  getTokenFromWeb env config w
  = match Exchange env (redirected config) code with
    | Ok tok =>
        (add_events w1 [EvExchange code; Stdout (LF +:+ "Authentication successful!" +:+ LF)],
         Ok (redirected config, tok))
    | Err e =>
        (add_events w1 [EvExchange code], Err ("unable to retrieve token from web: " +:+ e))
    end
  /\ auth_state (AuthCodeURL (redirected config) "state-token") = "state-token".
Proof.
  intros Ha Hc. split; [| reflexivity].
  rewrite getTokenFromWeb_run. now apply after_launch_code.
Qed.

Lemma callback_code_is_exchanged_whatever_state_witness :
  Query_Get forged_callback "state" = "not-the-state"
  /\ exists w',
       getTokenFromWeb (sample_env (Callback forged_callback) None) sample_config fresh_world
       = (w', Ok (redirected sample_config, sample_token))
       /\ In (EvExchange "ABC") (trace w').
Proof.
  split; [reflexivity |].
  pose proof (proj1 (callback_code_is_exchanged_whatever_state
                (sample_env (Callback forged_callback) None) sample_config fresh_world
                forged_callback eq_refl ltac:(discriminate))) as H.
  cbv zeta in H. change (Exchange _ _ _) with (@Ok Token sample_token) in H.
  cbv iota in H. eexists. split; [exact H |].
  simpl. repeat (first [left; reflexivity | right]).
Defined.

(** C2. When nothing arrives within three minutes the flow returns the
    timeout error, as the claim says; but it returns from inside the
    [select], before the call of [server.Shutdown] that the path of a
    received code goes through: the listener is still up, and no shutdown
    is among the actions of the flow. *)
Theorem timeout_leaves_listener_up env config w :
  arrival env = Timeout ->
  getTokenFromWeb env config w
  = (launched env config w, Err "authentication timeout after 3 minutes")
  /\ listening (launched env config w) = true
  /\ ~ In EvShutdown (launch_events env config).
Proof.
  intros Ha. repeat split.
  - rewrite getTokenFromWeb_run. now apply after_launch_timeout.
  - unfold launched, listener_up. simpl. now rewrite Ha.
  - unfold launch_events. rewrite in_app_iff. intros [H | H].
    + simpl in H. intuition discriminate.
    + destruct (browser_command _ _) as [[name args] |]; simpl in H; intuition discriminate.
Qed.

(** The file that an [O_RDWR] open leaves behind can be read. *)

Lemma timeout_leaves_listener_up_witness :
  exists w',
    getTokenFromWeb (sample_env Timeout None) sample_config fresh_world
    = (w', Err "authentication timeout after 3 minutes")
    /\ listening w' = true
    /\ ~ In EvShutdown (trace w').
Proof.
  destruct (timeout_leaves_listener_up (sample_env Timeout None) sample_config
              fresh_world eq_refl) as (Hrun & Hup & Hnone).
  exists (launched (sample_env Timeout None) sample_config fresh_world).
  repeat split; assumption.
Defined.

(** The same happens for a callback without a code. *)
Lemma missing_code_leaves_listener_up env config w r :
  arrival env = Callback r -> Query_Get r "code" = "" ->
  getTokenFromWeb env config w = (launched env config w, Err "no code in callback")
  /\ listening (launched env config w) = true.
Proof.
  intros Ha Hc. split.
  - rewrite getTokenFromWeb_run. now apply after_launch_no_code with r.
  - unfold launched, listener_up. simpl. now rewrite Ha.
Qed.

(** The path of a received code does shut the listener down, before the
    exchange. *)
Lemma received_code_shuts_listener_down env config w r :
  arrival env = Callback r -> Query_Get r "code" <> "" ->
  listening (fst (getTokenFromWeb env config w)) = false.
Proof.
  intros Ha Hc. rewrite getTokenFromWeb_run, (after_launch_code env config _ r Ha Hc).
  cbv zeta. now destruct (Exchange env (redirected config) (Query_Get r "code")).
Qed.

(** ** The token store *)







(** ** Client acquisition *)

(** C10. When the credentials are there and loading the token fails,
    [getClient] runs the authorization flow; with the token of the flow it
    attempts [saveToken], and whether the save succeeds or fails it returns
    without error the client built from the token in memory, a failed save
    leaving only a warning on standard error.  (A failed flow is the only
    way to fail from here.) *)
Theorem getClient_survives_save_failure env w b config w1 flow :
  os_Open w (credentials_path env) = Ok b ->
  ConfigFromJSON env b scopes = Ok config ->
  snd (tokenFromFile env (token_path env) w) <> None ->
  getTokenFromWeb env config w = (w1, flow) ->
  getClient env w
  = match flow with
    | Err err => (w1, Err err)
    | Ok (config', token) =>
        match saveToken env (token_path env) token w1 with
        | (w2, Ok _) => (w2, Ok (mkClient config' (Some token)))
        | (w2, Err err) =>
            (add_events w2 [Stderr ("Warning: unable to save token: " +:+ err +:+ LF)],
             Ok (mkClient config' (Some token)))
        end
    end.
Proof.
  intros Hcred Hconf Hload Hflow.
  unfold getClient. fold (credentials_path env) (token_path env).
  erewrite bind_Ok.
  2:{ unfold wrapping, os_ReadFile. rewrite Hcred. reflexivity. }
  erewrite bind_Ok.
  2:{ unfold wrapping, outcome. rewrite Hconf. reflexivity. }
  erewrite bind_Ok by reflexivity.
  destruct (tokenFromFile env (token_path env) w) as [loaded [loaderr |]];
    [| now contradiction Hload].
  destruct flow as [[config' token] | err].
  - erewrite bind_Ok by exact Hflow.
    unfold warn_unless_saved, mbind, M_bind.
    destruct (saveToken env (token_path env) token w1) as [w2 [[] | e]]; reflexivity.
  - now erewrite bind_Err by exact Hflow.
Qed.

Lemma getClient_survives_save_failure_witness :
  exists w2 client err,
    snd (saveToken (sample_env (Callback forged_callback) (Some "mkdir: permission denied"))
           "/home/u/.credentials/token_gmail.json" sample_token
           (fst (getTokenFromWeb
                   (sample_env (Callback forged_callback) (Some "mkdir: permission denied"))
                   sample_config fresh_world)))
    = Err err
    /\ getClient (sample_env (Callback forged_callback) (Some "mkdir: permission denied"))
         fresh_world = (w2, Ok client)
    /\ client_token client = Some sample_token
    /\ last (trace w2) = Some (Stderr ("Warning: unable to save token: " +:+ err +:+ LF)).
Proof.
  pose proof (getClient_survives_save_failure
                (sample_env (Callback forged_callback) (Some "mkdir: permission denied"))
                fresh_world sample_credentials sample_config _ _
                eq_refl eq_refl ltac:(discriminate) eq_refl) as H.
  vm_compute in H.
  eexists _, _, _. split; [reflexivity |]. split; [exact H |]. split; reflexivity.
Defined.

(** * Further properties *)



(** ** Authentication, further *)

Lemma after_launch_serve_error env config w e :
  arrival env = ServeError e -> after_launch env config w = (w, Err e).
Proof. intros Ha. unfold after_launch, await_code. rewrite Ha. reflexivity. Qed.

(** The whole flow, in one equation. *)
Lemma getTokenFromWeb_cases env config w :
  getTokenFromWeb env config w
  = (mkWorld (files w) (flow_listening env)
       (trace w ++ launch_events env config ++ flow_events env config),
     flow_result env config).
Proof.
  rewrite getTokenFromWeb_run. unfold flow_events, flow_result, flow_listening.
  destruct (arrival env) as [r | e |] eqn:Ha.
  - destruct (String.eqb_spec (Query_Get r "code") "") as [Hc | Hc].
    + rewrite (after_launch_no_code env config _ r Ha Hc).
      unfold launched, listener_up. rewrite Ha, app_nil_r. reflexivity.
    + rewrite (after_launch_code env config _ r Ha Hc). cbv zeta.
      unfold launched, stopped, add_events. simpl.
      destruct (Exchange env (redirected config) (Query_Get r "code"));
        simpl; rewrite <- ?app_assoc; reflexivity.
  - rewrite (after_launch_serve_error env config _ e Ha).
    unfold launched, listener_up. rewrite Ha, app_nil_r. reflexivity.
  - rewrite (after_launch_timeout env config _ Ha).
    unfold launched, listener_up. rewrite Ha, app_nil_r. reflexivity.
Qed.

(** The whole of [saveToken], in one equation. *)
Lemma saveToken_cases env path token w :
  saveToken env path token w
  = let w1 := add_events w (saveToken_events env path) in
    match MkdirAll_error env (filepath_Dir path) with
    | Some e => (w1, Err e)
    | None =>
        match open_error env w path with
        | Some e => (w1, Err e)
        | None =>
            let emptied := <[path := mkFile (mode_after_open w path 384) ""]> (files w) in
            match json_Encode env token with
            | Err e => (mkWorld emptied (listening w) (trace w1), Err e)
            | Ok text =>
                (mkWorld (<[path := mkFile (mode_after_open w path 384) text]> (files w))
                   (listening w) (trace w1), Ok tt)
            end
        end
    end.
Proof.
  unfold saveToken, saveToken_events, os_MkdirAll.
  unfold mbind, M_bind, emit, fail, ret, mret, M_ret, add_events. simpl.
  destruct (MkdirAll_error env (filepath_Dir path)) as [e |]; simpl.
  { now rewrite <- app_assoc. }
  unfold os_OpenFile_trunc, open_error, mode_after_open, json_Encode_to, outcome, file_Write,
    mbind, M_bind. simpl.
  destruct (files w !! path) as [f |] eqn:Ef.
  - destruct (may_open f true); simpl; [| now rewrite <- !app_assoc].
    destruct (json_Encode env token) as [text | e]; simpl.
    + rewrite lookup_insert_eq. simpl. now rewrite insert_insert_eq, <- !app_assoc.
    + now rewrite <- !app_assoc.
  - destruct (create_error env path); simpl; [now rewrite <- !app_assoc |].
    destruct (json_Encode env token) as [text | e]; simpl.
    + rewrite lookup_insert_eq. simpl. now rewrite insert_insert_eq, <- !app_assoc.
    + now rewrite <- !app_assoc.
Qed.

(** The whole of [getClient], in one equation. *)
Lemma getClient_cases env w :
  getClient env w
  = match os_Open w (credentials_path env) with
    | Err e =>
        (w, Err ("unable to read credentials file " +:+ credentials_path env +:+ ": " +:+ e))
    | Ok b =>
        match ConfigFromJSON env b scopes with
        | Err e => (w, Err ("unable to parse credentials: " +:+ e))
        | Ok config =>
            match tokenFromFile env (token_path env) w with
            | (token, None) => (w, Ok (mkClient config token))
            | (_, Some _) =>
                match getTokenFromWeb env config w with
                | (w1, Err e) => (w1, Err e)
                | (w1, Ok (config', token)) =>
                    match saveToken env (token_path env) token w1 with
                    | (w2, Ok _) => (w2, Ok (mkClient config' (Some token)))
                    | (w2, Err err) =>
                        (add_events w2
                           [Stderr ("Warning: unable to save token: " +:+ err +:+ LF)],
                         Ok (mkClient config' (Some token)))
                    end
                end
            end
        end
    end.
Proof.
  unfold getClient. fold (credentials_path env) (token_path env).
  unfold mbind at 1. unfold M_bind at 1. unfold wrapping at 1, os_ReadFile.
  destruct (os_Open w (credentials_path env)) as [b | e]; [| now rewrite !append_assoc].
  unfold mbind at 1. unfold M_bind at 1. unfold wrapping, outcome.
  destruct (ConfigFromJSON env b scopes) as [config | e]; [| reflexivity].
  unfold mbind at 1. unfold M_bind at 1. unfold the_world.
  destruct (tokenFromFile env (token_path env) w) as [loaded [loaderr |]]; [| reflexivity].
  unfold mbind at 1. unfold M_bind at 1.
  destruct (getTokenFromWeb env config w) as [w1 [[config' token] | e]]; [| reflexivity].
  unfold mbind, M_bind, warn_unless_saved.
  destruct (saveToken env (token_path env) token w1) as [w2 [[] | e]]; reflexivity.
Qed.

Lemma append_inj_l (a x y : string) : a +:+ x = a +:+ y -> x = y.
Proof.
  induction a as [| c a IH]; [trivial |].
  change (String c (a +:+ x) = String c (a +:+ y) -> x = y). intros [= H]. now apply IH.
Qed.

(** The credentials and the token never share a file. *)
Lemma credentials_path_ne_token_path env : credentials_path env <> token_path env.
Proof.
  unfold credentials_path, token_path, filepath_Join, credentialsFile, tokenFile.
  destruct (String.eqb (getCredentialsPath env) ""); [discriminate |].
  simpl. intros H. apply append_inj_l in H. discriminate H.
Qed.

Lemma tokenFromFile_stored env w path f token :
  files w !! path = Some f -> owner_can_read f = true ->
  json_Decode env (content f) = (token, None) ->
  tokenFromFile env path w = (Some token, None).
Proof.
  intros Hf Hr Hd. unfold tokenFromFile, os_Open. now rewrite Hf, Hr, Hd.
Qed.

Lemma getClient_stored env w b config token :
  os_Open w (credentials_path env) = Ok b ->
  ConfigFromJSON env b scopes = Ok config ->
  tokenFromFile env (token_path env) w = (token, None) ->
  getClient env w = (w, Ok (mkClient config token)).
Proof. intros Hb Hc Ht. now rewrite getClient_cases, Hb, Hc, Ht. Qed.

(** X1. With readable credentials that parse and a token file that can be
    read and decodes without error, [getClient] returns the client of the
    stored token and leaves the world as it was: no listener, no browser,
    no output, no file written. *)
Theorem getClient_uses_stored_token env w b config f token :
  os_Open w (credentials_path env) = Ok b ->
  ConfigFromJSON env b scopes = Ok config ->
  files w !! token_path env = Some f ->
  owner_can_read f = true ->
  json_Decode env (content f) = (token, None) ->
  getClient env w = (w, Ok (mkClient config (Some token))).
Proof.
  intros Hb Hc Hf Hr Hd. apply getClient_stored with b; try assumption.
  now apply tokenFromFile_stored with f.
Qed.

Lemma getClient_uses_stored_token_witness :
  getClient (sample_env Timeout None) signed_in_world
  = (signed_in_world, Ok (mkClient sample_config (Some sample_token))).
Proof.
  apply (getClient_uses_stored_token (sample_env Timeout None) signed_in_world
           sample_credentials sample_config (mkFile 384 sample_token_json) sample_token);
    vm_compute; reflexivity.
Defined.

(** X2. [getClient] fails in three ways only: the credentials file cannot
    be read, the credentials do not parse (both leave the world untouched
    and put their context before the error), or no token could be loaded
    and the authorization flow failed (its error is returned as it is).  In
    none of them a file is changed: [saveToken] is reached only with a
    token. *)
Theorem getClient_failure_keeps_files env w w1 e :
  getClient env w = (w1, Err e) ->
  files w1 = files w
  /\ ((w1 = w
       /\ exists e', os_Open w (credentials_path env) = Err e'
                     /\ e = "unable to read credentials file " +:+ credentials_path env
                            +:+ ": " +:+ e')
      \/ (w1 = w
          /\ exists b e', os_Open w (credentials_path env) = Ok b
                          /\ ConfigFromJSON env b scopes = Err e'
                          /\ e = "unable to parse credentials: " +:+ e')
      \/ (exists b config,
            os_Open w (credentials_path env) = Ok b
            /\ ConfigFromJSON env b scopes = Ok config
            /\ snd (tokenFromFile env (token_path env) w) <> None
            /\ getTokenFromWeb env config w = (w1, Err e))).
Proof.
  rewrite getClient_cases.
  destruct (os_Open w (credentials_path env)) as [b | e1] eqn:Eb.
  2:{ intros [= <- <-]. split; [reflexivity |]. left. split; [reflexivity |]. now exists e1. }
  destruct (ConfigFromJSON env b scopes) as [config | e1] eqn:Ec.
  2:{ intros [= <- <-]. split; [reflexivity |]. right. left. split; [reflexivity |].
      now exists b, e1. }
  destruct (tokenFromFile env (token_path env) w) as [loaded [loaderr |]] eqn:Et;
    [| discriminate].
  pose proof (getTokenFromWeb_cases env config w) as Hflow.
  destruct (getTokenFromWeb env config w) as [w2 [[config' token] | e2]] eqn:Ef.
  { destruct (saveToken env (token_path env) token w2) as [w3 [[] | e3]]; discriminate. }
  intros [= <- <-]. split.
  - now injection Hflow as -> _.
  - right. right. exists b, config. repeat split; try assumption. discriminate.
Qed.

Lemma getClient_failure_keeps_files_witness :
  let run := getClient (sample_env Timeout None) fresh_world in
  snd run = Err "authentication timeout after 3 minutes"
  /\ files (fst run) = files fresh_world.
Proof.
  intros run.
  assert (Hr : snd run = Err "authentication timeout after 3 minutes")
    by (vm_compute; reflexivity).
  split; [exact Hr |].
  destruct run as [w1 r] eqn:E. simpl in Hr. subst r.
  exact (proj1 (getClient_failure_keeps_files _ _ _ _ E)).
Defined.

(** X3. Authorization happens once.  When [getClient] had no usable token,
    obtained one from the flow and could save it (the directory can be
    made, the token file can be opened, the token is encoded to a text that
    decodes to it), then [getClient] on the world it left returns the same
    token from the file and does nothing else.  The first client carries
    the configuration with the redirect address of the flow, the second
    the configuration as parsed. *)
Theorem getClient_authorizes_once env w w1 client token text :
  snd (tokenFromFile env (token_path env) w) <> None ->
  getClient env w = (w1, Ok client) ->
  client_token client = Some token ->
  MkdirAll_error env (filepath_Dir (token_path env)) = None ->
  open_error env w (token_path env) = None ->
  json_Encode env token = Ok text ->
  json_Decode env text = (token, None) ->
  exists config,
    getClient env w1 = (w1, Ok (mkClient config (Some token)))
    /\ client_config client = redirected config.
Proof.
  intros Hload Hrun Htok Hdir Hopen Henc Hdec.
  rewrite getClient_cases in Hrun.
  destruct (os_Open w (credentials_path env)) as [b | e1] eqn:Eb; [| discriminate].
  destruct (ConfigFromJSON env b scopes) as [config | e1] eqn:Ec; [| discriminate].
  destruct (tokenFromFile env (token_path env) w) as [loaded [loaderr |]] eqn:Et;
    [| now contradiction Hload].
  rewrite getTokenFromWeb_cases in Hrun.
  destruct (flow_result env config) as [[config' token'] | e2] eqn:Ef; [| discriminate].
  assert (Hconfig : config' = redirected config).
  { unfold flow_result in Ef. destruct (arrival env) as [r | |]; try discriminate.
    destruct (String.eqb _ _); [discriminate |].
    destruct (Exchange _ _ _); [| discriminate]. now injection Ef as <- _. }
  rewrite saveToken_cases in Hrun. cbv zeta in Hrun.
  assert (Hopen' : forall tr, open_error env (mkWorld (files w) (flow_listening env) tr)
                                (token_path env) = None) by (intros tr; exact Hopen).
  rewrite Hdir, Hopen' in Hrun.
  assert (Htoken : token' = token).
  { destruct (json_Encode env token'); injection Hrun as _ <-; simpl in Htok; congruence. }
  subst token'. rewrite Henc in Hrun. injection Hrun as Hw1 Hclient.
  assert (Hfiles : files w1 = <[token_path env := mkFile (mode_after_open w (token_path env) 384)
                                                    text]> (files w)).
  { now rewrite <- Hw1. }
  exists config. split; [| now rewrite <- Hclient].
  apply getClient_stored with b; [| exact Ec |].
  - unfold os_Open in *. rewrite Hfiles.
    rewrite lookup_insert_ne by (apply not_eq_sym, credentials_path_ne_token_path). exact Eb.
  - apply tokenFromFile_stored with (mkFile (mode_after_open w (token_path env) 384) text);
      [rewrite Hfiles; apply lookup_insert_eq | | exact Hdec].
    unfold open_error, mode_after_open, owner_can_read in *. simpl.
    destruct (files w !! token_path env) as [f |]; [| reflexivity].
    unfold may_open in Hopen.
    destruct (owner_can_write f && (negb true || owner_can_read f)) eqn:E; [| discriminate].
    apply andb_true_iff in E as [_ E]. exact E.
Qed.

Lemma getClient_authorizes_once_witness :
  let env := sample_env (Callback forged_callback) None in
  let first := getClient env fresh_world in
  snd first = Ok (mkClient (redirected sample_config) (Some sample_token))
  /\ exists config,
       getClient env (fst first) = (fst first, Ok (mkClient config (Some sample_token))).
Proof.
  intros env first.
  assert (H1 : snd first = Ok (mkClient (redirected sample_config) (Some sample_token)))
    by (vm_compute; reflexivity).
  split; [exact H1 |].
  destruct first as [w1 r] eqn:E. simpl in H1. subst r.
  destruct (getClient_authorizes_once env fresh_world w1 _ sample_token sample_token_json
              ltac:(vm_compute; discriminate) E eq_refl
              ltac:(vm_compute; reflexivity) ltac:(vm_compute; reflexivity)
              ltac:(vm_compute; reflexivity) ltac:(vm_compute; reflexivity))
    as (config & Hrun & _).
  now exists config.
Defined.

(** X4. When the home directory cannot be determined, [getCredentialsPath]
    gives the empty path without an error: the credentials and the token
    are looked for under their bare names, in the working directory, and a
    missing credentials file is reported under that name. *)
Theorem getClient_without_home env w e :
  UserHomeDir env = Err e ->
  credentials_path env = "google_credentials.json"
  /\ token_path env = "token_gmail.json"
  /\ (files w !! "google_credentials.json" = None ->
      getClient env w
      = (w, Err ("unable to read credentials file google_credentials.json: "
                 +:+ "open google_credentials.json: no such file or directory"))).
Proof.
  intros Hhome.
  assert (Hc : credentials_path env = "google_credentials.json").
  { unfold credentials_path, getCredentialsPath. now rewrite Hhome. }
  assert (Ht : token_path env = "token_gmail.json").
  { unfold token_path, getCredentialsPath. now rewrite Hhome. }
  repeat split; try assumption.
  intros Hnone. rewrite getClient_cases, Hc. unfold os_Open. now rewrite Hnone.
Qed.

Lemma getClient_without_home_witness :
  getClient homeless_env fresh_world
  = (fresh_world,
     Err ("unable to read credentials file google_credentials.json: "
          +:+ "open google_credentials.json: no such file or directory")).
Proof.
  apply (getClient_without_home homeless_env fresh_world "$HOME is not defined");
    vm_compute; reflexivity.
Defined.

(** X5. A [saveToken] that returns without error has replaced the content
    of the file at the path by the encoding of the token (what was there is
    gone, nothing is appended); an existing file keeps its mode, a new one
    gets 0600; every other file is as before; the actions are the
    announcement on standard error, the making of the directory with mode
    0700 and the opening of the file. *)
Theorem saveToken_replaces_file env path token w w' :
  saveToken env path token w = (w', Ok tt) ->
  exists text,
    json_Encode env token = Ok text
    /\ files w' = <[path := mkFile (mode_after_open w path 384) text]> (files w)
    /\ (forall other, other <> path -> files w' !! other = files w !! other)
    /\ listening w' = listening w
    /\ trace w' = trace w ++ [ Stderr ("Saving credentials to: " +:+ path +:+ LF);
                               EvMkdirAll (filepath_Dir path) 448;
                               EvOpenFile path ].
Proof.
  rewrite saveToken_cases. cbv zeta. unfold saveToken_events.
  destruct (MkdirAll_error env (filepath_Dir path)); [discriminate |].
  destruct (open_error env w path); [discriminate |].
  destruct (json_Encode env token) as [text | e]; [| discriminate].
  intros [= <-]. exists text. simpl. repeat split.
  intros other Hne. now rewrite lookup_insert_ne.
Qed.

Lemma saveToken_replaces_file_witness :
  let w := mkWorld (<[ "/home/u/.credentials/token_gmail.json" := mkFile 420 "old" ]>
                      (files fresh_world)) false [] in
  let run := saveToken (sample_env Timeout None) "/home/u/.credentials/token_gmail.json"
               sample_token w in
  snd run = Ok tt
  /\ files (fst run) !! "/home/u/.credentials/token_gmail.json"
     = Some (mkFile 420 sample_token_json)
  /\ files (fst run) !! "/home/u/.credentials/google_credentials.json"
     = files w !! "/home/u/.credentials/google_credentials.json".
Proof.
  intros w run.
  assert (Hr : snd run = Ok tt) by (vm_compute; reflexivity).
  split; [exact Hr |].
  destruct run as [w' r] eqn:E. simpl in Hr. subst r.
  destruct (saveToken_replaces_file _ _ _ _ _ E) as (text & Henc & Hfiles & Hother & _).
  vm_compute in Henc. injection Henc as <-. split.
  - simpl fst. rewrite Hfiles, lookup_insert_eq. reflexivity.
  - apply Hother. discriminate.
Defined.

(** X6. A [saveToken] that fails has either changed no file (the directory
    could not be made, or the file could not be opened), or failed in the
    encoder: then the file has already been truncated, so the token that
    was stored before is lost and the file is left empty. *)
Theorem saveToken_failure_effects env path token w w' e :
  saveToken env path token w = (w', Err e) ->
  (files w' = files w
   /\ (MkdirAll_error env (filepath_Dir path) = Some e
       \/ (MkdirAll_error env (filepath_Dir path) = None /\ open_error env w path = Some e)))
  \/ (json_Encode env token = Err e
      /\ files w' = <[path := mkFile (mode_after_open w path 384) ""]> (files w)
      /\ os_Open w' path = (if N.testbit (mode_after_open w path 384) 8 then Ok ""
                            else Err ("open " +:+ path +:+ ": permission denied"))).
Proof.
  rewrite saveToken_cases. cbv zeta.
  destruct (MkdirAll_error env (filepath_Dir path)) as [e1 |] eqn:Ed.
  { intros [= <- <-]. left. split; [reflexivity | now left]. }
  destruct (open_error env w path) as [e1 |] eqn:Eo.
  { intros [= <- <-]. left. split; [reflexivity | now right]. }
  destruct (json_Encode env token) as [text | e1]; [discriminate |].
  intros [= <- <-]. right. split; [reflexivity |]. split; [reflexivity |].
  unfold os_Open, owner_can_read. simpl. now rewrite lookup_insert_eq.
Qed.

Lemma saveToken_failure_effects_witness :
  let run := saveToken (sample_env Timeout None) "/home/u/.credentials/token_gmail.json"
               unencodable_token signed_in_world in
  snd run = Err "json: unsupported value"
  /\ os_Open signed_in_world "/home/u/.credentials/token_gmail.json" = Ok sample_token_json
  /\ os_Open (fst run) "/home/u/.credentials/token_gmail.json" = Ok "".
Proof.
  intros run.
  assert (Hr : snd run = Err "json: unsupported value") by (vm_compute; reflexivity).
  split; [exact Hr |]. split; [vm_compute; reflexivity |].
  destruct run as [w' r] eqn:E. simpl in Hr. subst r.
  destruct (saveToken_failure_effects _ _ _ _ _ _ E) as [[_ [H | [_ H]]] | (_ & _ & H)].
  - vm_compute in H. discriminate H.
  - vm_compute in H. discriminate H.
  - exact H.
Defined.

(** X7. Every token that [getTokenFromWeb] returns is the answer of the
    token endpoint to the code of the callback that arrived, exchanged
    under the configuration whose redirect address is the loopback
    callback; by then the browser has been answered and the listener shut
    down, exactly one exchange has been made, and no file has been
    touched. *)
Theorem getTokenFromWeb_token_origin env config w w' config' tok :
  getTokenFromWeb env config w = (w', Ok (config', tok)) ->
  exists r,
    arrival env = Callback r
    /\ Query_Get r "code" <> ""
    /\ Exchange env (redirected config) (Query_Get r "code") = Ok tok
    /\ config' = redirected config
    /\ files w' = files w
    /\ listening w' = false
    /\ trace w' = trace w ++ launch_events env config
                  ++ [ EvRespond "text/html" success_page; EvShutdown;
                       EvExchange (Query_Get r "code");
                       Stdout (LF +:+ "Authentication successful!" +:+ LF) ]
    /\ List.filter is_exchange (launch_events env config) = [].
Proof.
  rewrite getTokenFromWeb_cases. unfold flow_result, flow_events, flow_listening.
  destruct (arrival env) as [r | |]; try discriminate.
  destruct (String.eqb_spec (Query_Get r "code") "") as [Hc | Hc]; [discriminate |].
  destruct (Exchange env (redirected config) (Query_Get r "code")) as [tok' |] eqn:Ex;
    [| discriminate].
  intros [= <- <- <-]. exists r. repeat split; try assumption.
  unfold launch_events. rewrite List.filter_app.
  now destruct (browser_command _ _) as [[name args] |].
Qed.

Lemma getTokenFromWeb_token_origin_witness :
  let run := getTokenFromWeb (sample_env (Callback forged_callback) None) sample_config
               fresh_world in
  snd run = Ok (redirected sample_config, sample_token)
  /\ listening (fst run) = false
  /\ files (fst run) = files fresh_world.
Proof.
  intros run.
  assert (Hr : snd run = Ok (redirected sample_config, sample_token))
    by (vm_compute; reflexivity).
  split; [exact Hr |].
  destruct run as [w' r] eqn:E. simpl in Hr. subst r.
  destruct (getTokenFromWeb_token_origin _ _ _ _ _ _ E)
    as (r & _ & _ & _ & _ & Hf & Hl & _).
  now split.
Defined.

(** X8. When the listener cannot start, [getTokenFromWeb] returns the
    error of [ListenAndServe] as it is, without exchanging anything and
    without touching a file; the address has been printed and the browser
    has been started all the same, since the error is only read by the
    [select] that follows. *)
Theorem getTokenFromWeb_serve_error env config w e :
  arrival env = ServeError e ->
  getTokenFromWeb env config w = (launched env config w, Err e)
  /\ listening (launched env config w) = false
  /\ files (launched env config w) = files w
  /\ List.filter is_exchange (launch_events env config) = []
  /\ (forall name args,
        browser_command (GOOS env) (url_text (AuthCodeURL (redirected config) "state-token"))
        = Some (name, args) ->
        last (launch_events env config) = Some (EvStartCmd name args)).
Proof.
  intros Ha. rewrite getTokenFromWeb_cases.
  unfold flow_result, flow_events, flow_listening, launched, listener_up. rewrite Ha, app_nil_r.
  repeat split.
  - unfold launch_events. rewrite List.filter_app.
    now destruct (browser_command _ _) as [[name args] |].
  - intros name args Hb. unfold launch_events. now rewrite Hb.
Qed.

Lemma getTokenFromWeb_serve_error_witness :
  let env := sample_env (ServeError "listen tcp :8080: bind: address already in use") None in
  getTokenFromWeb env sample_config fresh_world
  = (launched env sample_config fresh_world,
     Err "listen tcp :8080: bind: address already in use")
  /\ listening (launched env sample_config fresh_world) = false.
Proof.
  intros env.
  destruct (getTokenFromWeb_serve_error env sample_config fresh_world _ eq_refl)
    as (Hrun & Hl & _).
  now split.
Defined.

Lemma getGmailService_cases env w :
  getGmailService env w
  = match getClient env w with
    | (w1, Ok client) =>
        match NewService_error env with
        | Some err => (w1, Err ("unable to create Gmail service: " +:+ err))
        | None => (w1, Ok (mkService client))
        end
    | (w1, Err e) => (w1, Err e)
    end.
Proof.
  unfold getGmailService, mbind, M_bind.
  destruct (getClient env w) as [w1 [client | e]]; [| reflexivity].
  now destruct (NewService_error env).
Qed.

Lemma flow_events_quiet env config :
  Forall (fun e => is_mail_event e = false) (launch_events env config ++ flow_events env config).
Proof.
  apply Forall_app. split.
  - unfold launch_events. apply Forall_app. split; [repeat constructor |].
    destruct (browser_command _ _) as [[name args] |]; repeat constructor.
  - unfold flow_events. destruct (arrival env) as [r | |]; try constructor.
    destruct (String.eqb _ _); [constructor |].
    destruct (Exchange _ _ _); repeat constructor.
Qed.

Lemma saveToken_events_quiet env path :
  Forall (fun e => is_mail_event e = false) (saveToken_events env path).
Proof.
  unfold saveToken_events. destruct (MkdirAll_error _ _); repeat constructor.
Qed.

Lemma saveToken_confined env path token w :
  (forall other, other <> path ->
     files (fst (saveToken env path token w)) !! other = files w !! other)
  /\ trace (fst (saveToken env path token w)) = trace w ++ saveToken_events env path.
Proof.
  rewrite saveToken_cases. cbv zeta.
  destruct (MkdirAll_error env (filepath_Dir path)); [now split |].
  destruct (open_error env w path); [now split |].
  destruct (json_Encode env token); (split; [| reflexivity]);
    intros other Hne; simpl; now rewrite lookup_insert_ne.
Qed.

Lemma getClient_confined env w :
  (forall other, other <> token_path env ->
     files (fst (getClient env w)) !! other = files w !! other)
  /\ exists new, trace (fst (getClient env w)) = trace w ++ new
                 /\ Forall (fun e => is_mail_event e = false) new.
Proof.
  rewrite getClient_cases.
  assert (Hnone : forall w0 : World,
             (forall other, other <> token_path env -> files w0 !! other = files w0 !! other)
             /\ exists new, trace w0 = trace w0 ++ new
                            /\ Forall (fun e => is_mail_event e = false) new).
  { intros w0. split; [reflexivity |]. exists []. now rewrite app_nil_r. }
  destruct (os_Open w (credentials_path env)) as [b | e1]; [| apply Hnone].
  destruct (ConfigFromJSON env b scopes) as [config | e1]; [| apply Hnone].
  destruct (tokenFromFile env (token_path env) w) as [loaded [loaderr |]]; [| apply Hnone].
  rewrite getTokenFromWeb_cases.
  destruct (flow_result env config) as [[config' token] | e2].
  2:{ split; [reflexivity |]. eexists. split; [reflexivity |]. apply flow_events_quiet. }
  set (w1 := mkWorld _ _ _).
  destruct (saveToken_confined env (token_path env) token w1) as [Hfiles Htrace].
  destruct (saveToken env (token_path env) token w1) as [w2 [[] | e3]]; simpl in *.
  - split; [exact Hfiles |]. eexists. split.
    + rewrite Htrace, <- app_assoc. reflexivity.
    + apply Forall_app. split; [apply flow_events_quiet | apply saveToken_events_quiet].
  - split; [exact Hfiles |]. eexists. split.
    + rewrite Htrace, <- !app_assoc. reflexivity.
    + apply Forall_app. split; [apply flow_events_quiet |].
      apply Forall_app. split; [apply saveToken_events_quiet | repeat constructor].
Qed.

(** The actions of [getGmailService] are none of the mail service. *)
Lemma getGmailService_trace env w :
  exists new, trace (fst (getGmailService env w)) = trace w ++ new
              /\ Forall (fun e => is_mail_event e = false) new.
Proof.
  rewrite getGmailService_cases.
  pose proof (proj2 (getClient_confined env w)) as H.
  destruct (getClient env w) as [w1 [client | e]]; [| exact H].
  now destruct (NewService_error env).
Qed.

(** X9. Obtaining the service stays within authentication: whatever
    happens, [getGmailService] changes no file other than the token file,
    sends nothing to the mail service and writes no downloaded file. *)
Theorem getGmailService_confined env w :
  (forall other, other <> token_path env ->
     files (fst (getGmailService env w)) !! other = files w !! other)
  /\ exists new, trace (fst (getGmailService env w)) = trace w ++ new
                 /\ Forall (fun e => is_mail_event e = false) new.
Proof.
  rewrite getGmailService_cases.
  pose proof (getClient_confined env w) as H.
  destruct (getClient env w) as [w1 [client | e]]; [| exact H].
  now destruct (NewService_error env).
Qed.

(** ** Downloads, further *)

Lemma os_WriteFile_files env name data mode w :
  match os_WriteFile env name data mode w with
  | (w', Ok _) => files w' = written (files w) name data mode
  | (w', Err _) => files w' = files w
  end.
Proof.
  unfold os_WriteFile. erewrite bind_Ok by apply emit_run.
  unfold mbind, M_bind, os_OpenFile_trunc, file_Write, add_events, written. simpl.
  destruct (files w !! name) as [f |].
  - destruct (may_open f false); simpl; [| reflexivity].
    rewrite lookup_insert_eq. simpl. now rewrite insert_insert_eq.
  - destruct (create_error env name); simpl; [reflexivity |].
    rewrite lookup_insert_eq. simpl. now rewrite insert_insert_eq.
Qed.

Lemma saved_files_app env messageID dir l1 l2 fs :
  saved_files env messageID dir (l1 ++ l2) fs
  = saved_files env messageID dir l2 (saved_files env messageID dir l1 fs).
Proof. unfold saved_files. apply fold_left_app. Qed.

Lemma stored_bind env messageID dir l1 l2 (m1 m2 : M (World * Z) unit) w count :
  stored env messageID dir l1 w count (m1 (w, count)) ->
  (forall w1 c1, stored env messageID dir l2 w1 c1 (m2 (w1, c1))) ->
  stored env messageID dir (l1 ++ l2) w count ((m1;; m2) (w, count)).
Proof.
  intros (w1 & c1 & r1 & k1 & Hrun1 & Hf1 & Hg1 & Hc1 & Hr1) H2.
  unfold stored, mbind, M_bind. rewrite Hrun1.
  destruct r1 as [[] | e1].
  - subst k1. rewrite firstn_all in Hf1, Hg1.
    destruct (H2 w1 c1) as (w2 & c2 & r2 & k2 & Hrun2 & Hf2 & Hg2 & Hc2 & Hr2).
    rewrite Hrun2. exists w2, c2, r2, (length l1 + k2)%nat. split; [reflexivity |].
    rewrite take_app_add. split; [| split; [| split]].
    + rewrite saved_files_app, <- Hf1. exact Hf2.
    + apply Forall_app. now split.
    + rewrite Hc2, Hc1. apply count_after_app.
    + rewrite length_app. destruct r2; lia.
  - exists w1, c1, (Err e1), k1. split; [reflexivity |].
    rewrite take_app_le by lia. split; [| split; [| split]]; try assumption.
    rewrite length_app. lia.
Qed.

Lemma download_part_stored env messageID part dir w count :
  stored env messageID dir (if is_attachment part then [part] else []) w count
    (download_part env messageID part dir (w, count)).
Proof.
  destruct (is_attachment part) eqn:Ea.
  2:{ rewrite download_part_skip by exact Ea. exists w, count, (Ok tt), 0%nat.
      repeat split. constructor. }
  unfold is_attachment in Ea. unfold download_part.
  assert (Hid : exists b, Body part = Some b /\ attachment_id part = AttachmentId b).
  { unfold attachment_id in *. destruct (Body part) as [b |]; [now exists b |].
    now rewrite andb_false_r in Ea. }
  destruct Hid as (b & Eb & Hid).
  apply andb_true_iff in Ea as [Hname Hatt].
  rewrite Hname, Eb. cbv zeta. rewrite <- Hid, Hatt.
  erewrite bind_Ok by (apply with_count_run, emit_run).
  set (w1 := add_events w [Stderr ("Downloading: " +:+ Filename part +:+ LF)]).
  set (w2 := add_events w1 [EvAttachmentsGet "me" messageID (attachment_id part)]).
  assert (Hget : with_count (do_Attachments_Get env messageID (attachment_id part)) (w1, count)
                 = ((w2, count), Attachments_Get env messageID (attachment_id part))).
  { apply with_count_run. unfold do_Attachments_Get.
    erewrite bind_Ok by apply emit_run. reflexivity. }
  unfold stored.
  destruct (Attachments_Get env messageID (attachment_id part)) as [raw | e] eqn:Eg.
  - erewrite bind_Ok by (apply wrapping_Ok; exact Hget).
    destruct (Base64.DecodeString raw) as [data |] eqn:Ed.
    + erewrite bind_Ok.
      2:{ apply wrapping_Ok. unfold decode_base64. rewrite Ed. reflexivity. }
      pose proof (os_WriteFile_files env (target_path dir part) data 420 w2) as Hwf.
      destruct (os_WriteFile env (target_path dir part) data 420 w2) as [w3 [[] | e]] eqn:Ew.
      * erewrite bind_Ok by (apply wrapping_Ok, with_count_run; exact Ew).
        erewrite bind_Ok by (apply with_count_run, emit_run).
        eexists _, _, (Ok tt), 1%nat. split; [reflexivity |].
        split; [| split; [| split; reflexivity]].
        -- simpl. unfold fetched. rewrite Eg, Ed. exact Hwf.
        -- constructor; [| constructor]. unfold fetched. rewrite Eg, Ed. discriminate.
      * erewrite bind_Err.
        2:{ unfold wrapping. erewrite with_count_run by exact Ew. reflexivity. }
        eexists w3, count, (Err _), 0%nat. split; [reflexivity |].
        split; [exact Hwf |]. split; [constructor |]. split; [reflexivity | simpl; lia].
    + erewrite bind_Err.
      2:{ unfold wrapping, decode_base64. rewrite Ed. reflexivity. }
      eexists w2, count, (Err _), 0%nat. split; [reflexivity |].
      split; [reflexivity |]. split; [constructor |]. split; [reflexivity | simpl; lia].
  - erewrite bind_Err.
    2:{ unfold wrapping. rewrite Hget. reflexivity. }
    eexists w2, count, (Err _), 0%nat. split; [reflexivity |].
    split; [reflexivity |]. split; [constructor |]. split; [reflexivity | simpl; lia].
Qed.

Lemma processAttachments_range_stored env messageID dir parts :
  Forall (fun part => forall w count,
            stored env messageID dir (attachment_parts part) w count
              (processAttachments env messageID part dir (w, count))) parts ->
  forall w count,
    stored env messageID dir (flat_map attachment_parts parts) w count
      (processAttachments_range env messageID dir parts (w, count)).
Proof.
  induction 1 as [| part parts Hpart _ IH]; intros w count.
  - exists w, count, (Ok tt), 0%nat. repeat split. constructor.
  - simpl. apply stored_bind; [apply Hpart | apply IH].
Qed.

Lemma processAttachments_stored env messageID dir part :
  forall w count,
    stored env messageID dir (attachment_parts part) w count
      (processAttachments env messageID part dir (w, count)).
Proof.
  induction part as [b f h m i parts IH] using MessagePart_ind'.
  intros w count. rewrite processAttachments_unfold, attachment_parts_unfold.
  apply stored_bind; [apply download_part_stored |].
  intros w1 c1. now apply processAttachments_range_stored.
Qed.












(** ** Bodies and outgoing messages, further *)

Lemma encode_nonempty (b : N) (bs : list N) : Base64.encode (b :: bs) <> [].
Proof. destruct bs as [| b1 [| b2 rest]]; discriminate. Qed.

Lemma EncodeToString_nonempty (text : string) :
  text <> "" -> Base64.EncodeToString text <> "".
Proof.
  destruct text as [| c rest]; [congruence |]. intros _.
  unfold Base64.EncodeToString, Base64.bytes_of_string. cbn [list_ascii_of_string map].
  pose proof (encode_nonempty (N_of_ascii c) (map N_of_ascii (list_ascii_of_string rest))) as H.
  destruct (Base64.encode _); [congruence | discriminate].
Qed.

(** X13. [getBody] reads back what [EncodeToString] wrote: a part whose
    inline data is the encoding of a non-empty text gives that text,
    whatever its sub-parts are.  The encoding of the empty text is the empty
    string, which [getBody] takes for no data: without sub-parts the result
    is the sentinel. *)
Theorem getBody_EncodeToString part b text :
  Body part = Some b ->
  Data b = Base64.EncodeToString text ->
  (text <> "" -> getBody part = text)
  /\ (text = "" -> Parts part = [] -> getBody part = no_text_content).
Proof.
  intros Hb Hdata. split.
  - intros Hne. apply getBody_selected. left. exists b. split; [exact Hb |].
    rewrite Hdata. split; [now apply EncodeToString_nonempty |].
    apply Base64Facts.DecodeString_EncodeToString.
  - intros -> Hparts. unfold getBody, getBody_own. rewrite Hb, Hdata, Hparts. reflexivity.
Qed.

Lemma getBody_EncodeToString_witness :
  getBody (leaf "text/plain" "" "" "SGk=") = "Hi".
Proof.
  apply (getBody_EncodeToString (leaf "text/plain" "" "" "SGk=") (mkBody "" "SGk=" 0) "Hi");
    [reflexivity | vm_compute; reflexivity | discriminate].
Defined.

(** X14. [runSend] copies the values of the flags into the message as
    they are, line breaks included: a [--to] value that goes on, after CR
    LF, with a Cc line gives the message, and so the raw payload, of the
    same invocation with that value in [--cc]. *)
Theorem send_message_copies_values_verbatim (flags : SendFlags) :
  cc flags <> "" ->
  send_message (cc_inside_to flags) = send_message flags
  /\ Base64.EncodeToString (send_message (cc_inside_to flags))
     = Base64.EncodeToString (send_message flags).
Proof.
  intros Hcc.
  assert (H : send_message (cc_inside_to flags) = send_message flags).
  { unfold send_message, cc_inside_to, WriteString. cbn [to cc bcc subject body].
    apply String.eqb_neq in Hcc. rewrite Hcc. cbn [negb String.eqb].
    destruct (negb (String.eqb (bcc flags) "")); rewrite ?append_assoc; reflexivity. }
  split; [exact H | now rewrite H].
Qed.

Lemma send_message_copies_values_verbatim_witness :
  send_message (mkSendFlags ("a@x.com" +:+ CRLF +:+ "Cc: c@x.com") "Hi" "Hello" "" "" [])
  = send_message send_with_copy.
Proof.
  exact (proj1 (send_message_copies_values_verbatim send_with_copy ltac:(discriminate))).
Defined.

Lemma filter_is_send_quiet (new : list Event) :
  Forall (fun e => is_mail_event e = false) new -> List.filter is_send new = [].
Proof.
  induction 1 as [| e new He _ IH]; [reflexivity |].
  simpl. destruct e; try exact IH. discriminate He.
Qed.

(** X24. [runSend] sends at most once.  When no service could be obtained
    nothing is sent; otherwise the message is submitted exactly once.  The
    command returns without error exactly when the service was obtained and
    accepted the message. *)
Theorem runSend_sends_at_most_once (env : Env) (flags : SendFlags) (w : World) :
  let raw := Base64.EncodeToString (send_message flags) in
  exists new,
    trace (fst (runSend env flags w)) = trace w ++ new
    /\ List.filter is_send new
       = match snd (getGmailService env w) with
         | Ok _ => [EvMessagesSend "me" raw]
         | Err _ => []
         end
    /\ (snd (runSend env flags w) = Ok tt
        <-> (exists service, snd (getGmailService env w) = Ok service)
            /\ Messages_Send env raw = None).
Proof.
  intros raw.
  destruct (getGmailService_trace env w) as (new0 & Htrace & Hquiet).
  destruct (getGmailService env w) as [w1 [service | e]] eqn:Es; cbn [fst snd] in *.
  - rewrite (runSend_run env flags w w1 service Es). cbv zeta. fold raw.
    destruct (Messages_Send env raw) as [err |].
    + exists (new0 ++ [EvMessagesSend "me" raw]). cbn [fst snd add_events trace].
      split; [now rewrite Htrace, <- app_assoc |]. split.
      * rewrite List.filter_app, (filter_is_send_quiet new0 Hquiet). reflexivity.
      * split; [discriminate | now intros [_ H]].
    + exists (new0 ++ [ EvMessagesSend "me" raw;
                        Stderr (check_mark +:+ " Email sent successfully to " +:+ to flags
                                +:+ LF) ]).
      cbn [fst snd add_events trace].
      split; [now rewrite Htrace, <- app_assoc |]. split.
      * rewrite List.filter_app, (filter_is_send_quiet new0 Hquiet). reflexivity.
      * split; [intros _; split; [now exists service | reflexivity] | reflexivity].
  - rewrite (runSend_without_service env flags w w1 e Es). cbn [fst snd].
    exists new0. split; [exact Htrace |]. split.
    + now apply filter_is_send_quiet.
    + split; [discriminate | now intros [[service H] _]].
Qed.

Lemma runSend_sends_at_most_once_witness :
  snd (runSend refusing_env plain_send signed_in_world)
  = Err "error sending email: googleapi: Error 400: Invalid To header"
  /\ snd (runSend (sample_env Timeout None) plain_send fresh_world)
     = Err "authentication timeout after 3 minutes"
  /\ exists new,
       trace (fst (runSend (sample_env Timeout None) plain_send fresh_world)) = new
       /\ List.filter is_send new = [].
Proof.
  split; [vm_compute; reflexivity |]. split; [vm_compute; reflexivity |].
  destruct (runSend_sends_at_most_once (sample_env Timeout None) plain_send fresh_world)
    as (new & Htrace & Hsend & _).
  exists new. split; [exact Htrace |]. rewrite Hsend. vm_compute. reflexivity.
Defined.

(** ** The other commands *)

Lemma in_session_run {A} (m : M World A) w calls w' r :
  m w = (w', r) -> in_session m (w, calls) = ((w', calls), r).
Proof. intros H. unfold in_session. simpl. now rewrite H. Qed.

(** Every command starts by obtaining the service. *)
Lemma bind_service {A} env (k : Service -> M Session A) w calls :
  (service ← in_session (getGmailService env); k service) (w, calls)
  = match getGmailService env w with
    | (w1, Ok service) => k service (w1, calls)
    | (w1, Err e) => ((w1, calls), Err e)
    end.
Proof.
  unfold mbind, M_bind, in_session. simpl.
  now destruct (getGmailService env w) as [w1 [service | e]].
Qed.

Lemma one_request_run {A} (c : Call) (answer : result A) prefix (done : A -> list Event)
    (k : A -> M Session unit) w1 calls :
  (forall a s, k a s = ((add_events (fst s) (done a), snd s), Ok tt)) ->
  (a ← wrapping prefix (request c answer); k a) (w1, calls)
  = one_request w1 calls c answer prefix done.
Proof.
  intros Hk. unfold mbind, M_bind, wrapping, request, one_request. simpl.
  destruct answer as [a | err]; [| reflexivity]. now rewrite Hk.
Qed.

Lemma in_session_emit e s :
  in_session (emit e) s = ((add_events (fst s) [e], snd s), Ok tt).
Proof. now destruct s. Qed.

(** X15. [read], [unread], [archive] and [labels apply] return the error
    of [getGmailService] without sending anything; with the service they
    send one modification of the message and nothing else: [read] removes
    UNREAD only, [unread] adds UNREAD only, [archive] removes INBOX only,
    [apply] adds the given label only.  The confirmation is printed on
    standard error when the request was accepted; otherwise its error is
    returned behind the context of the command, and nothing is printed. *)
Theorem label_commands_send_one_request env box messageID labelID w calls :
  runRead env box messageID (w, calls)
  = with_service env w calls (fun w1 =>
      one_request w1 calls (MessagesModify "me" messageID [] ["UNREAD"])
        (error_of (Messages_Modify box messageID [] ["UNREAD"]))
        "error marking as read: "
        (fun _ => [Stderr (check_mark +:+ " Message marked as read" +:+ LF)]))
  /\ runUnread env box messageID (w, calls)
     = with_service env w calls (fun w1 =>
         one_request w1 calls (MessagesModify "me" messageID ["UNREAD"] [])
           (error_of (Messages_Modify box messageID ["UNREAD"] []))
           "error marking as unread: "
           (fun _ => [Stderr (check_mark +:+ " Message marked as unread" +:+ LF)]))
  /\ runArchive env box messageID (w, calls)
     = with_service env w calls (fun w1 =>
         one_request w1 calls (MessagesModify "me" messageID [] ["INBOX"])
           (error_of (Messages_Modify box messageID [] ["INBOX"]))
           "error archiving: "
           (fun _ => [Stderr (check_mark +:+ " Message archived" +:+ LF)]))
  /\ runApplyLabel env box messageID labelID (w, calls)
     = with_service env w calls (fun w1 =>
         one_request w1 calls (MessagesModify "me" messageID [labelID] [])
           (error_of (Messages_Modify box messageID [labelID] []))
           "error applying label: "
           (fun _ => [Stderr (check_mark +:+ " Label applied" +:+ LF)])).
Proof.
  unfold runRead, runUnread, runArchive, runApplyLabel, with_service.
  rewrite !bind_service.
  destruct (getGmailService env w) as [w1 [service | e]]; [| now repeat split].
  repeat split; apply one_request_run; intros [] s; apply in_session_emit.
Qed.

Lemma label_commands_send_one_request_witness :
  runRead (sample_env Timeout None) sample_box "m1" (signed_in_world, [])
  = ((add_events signed_in_world [Stderr (check_mark +:+ " Message marked as read" +:+ LF)],
      [MessagesModify "me" "m1" [] ["UNREAD"]]), Ok tt)
  /\ runArchive (sample_env Timeout None) sample_box "m9" (signed_in_world, [])
     = ((signed_in_world, [MessagesModify "me" "m9" [] ["INBOX"]]),
        Err "error archiving: googleapi: Error 404")
  /\ runUnread (sample_env Timeout None) sample_box "m1" (fresh_world, [])
     = ((launched (sample_env Timeout None) sample_config fresh_world, []),
        Err "authentication timeout after 3 minutes").
Proof.
  split; [| split].
  - rewrite (proj1 (label_commands_send_one_request (sample_env Timeout None) sample_box
                      "m1" "" signed_in_world [])).
    vm_compute. reflexivity.
  - rewrite (proj1 (proj2 (proj2 (label_commands_send_one_request (sample_env Timeout None)
                                    sample_box "m9" "" signed_in_world [])))).
    vm_compute. reflexivity.
  - rewrite (proj1 (proj2 (label_commands_send_one_request (sample_env Timeout None)
                             sample_box "m1" "" fresh_world []))).
    vm_compute. reflexivity.
Defined.

Lemma print_labels_run labels w :
  print_labels labels w
  = (add_events w (map (fun label => Stdout (Label.Name label +:+ " (ID: " +:+ Label.Id label
                                           +:+ ")" +:+ LF)) labels), Ok tt).
Proof.
  revert w. induction labels as [| label rest IH]; intros w.
  - unfold add_events. simpl. rewrite app_nil_r. now destruct w.
  - simpl. erewrite bind_Ok by apply emit_run. rewrite IH.
    unfold add_events. simpl. now rewrite <- app_assoc.
Qed.

(** X16. [delete], [labels create] and [labels list] return the error of
    [getGmailService] without sending anything; with the service they send
    one request: [delete] moves the message to the trash, [create] asks for
    a label of the given name and confirms with the name and the identifier
    of the answer, [list] prints one line per label of the answer, in its
    order. *)
Theorem delete_and_label_commands env box messageID name w calls :
  runDelete env box messageID (w, calls)
  = with_service env w calls (fun w1 =>
      one_request w1 calls (MessagesTrash "me" messageID)
        (error_of (Messages_Trash box messageID))
        "error deleting: "
        (fun _ => [Stderr (check_mark +:+ " Message deleted" +:+ LF)]))
  /\ runCreateLabel env box name (w, calls)
     = with_service env w calls (fun w1 =>
         one_request w1 calls (LabelsCreate "me" name) (Labels_Create box name)
           "error creating label: "
           (fun result => [Stderr (check_mark +:+ " Label created: " +:+ Label.Name result
                                   +:+ " (ID: " +:+ Label.Id result +:+ ")" +:+ LF)]))
  /\ runListLabels env box (w, calls)
     = with_service env w calls (fun w1 =>
         one_request w1 calls (LabelsList "me") (Labels_List box)
           "error listing labels: "
           (map (fun label => Stdout (Label.Name label +:+ " (ID: " +:+ Label.Id label
                                      +:+ ")" +:+ LF)))).
Proof.
  unfold runDelete, runCreateLabel, runListLabels, with_service.
  rewrite !bind_service.
  destruct (getGmailService env w) as [w1 [service | e]]; [| now repeat split].
  repeat split; apply one_request_run.
  - intros [] s. apply in_session_emit.
  - intros result s. apply in_session_emit.
  - intros labels [w2 calls2]. apply in_session_run, print_labels_run.
Qed.

Lemma listMessagesWithDetails_run box messages w calls :
  listMessagesWithDetails box messages (w, calls)
  = ((add_events w (flat_map (listing box) messages),
      calls ++ map (fun msg => MessagesGet "me" (Id msg)) messages), Ok tt).
Proof.
  revert w calls. induction messages as [| msg rest IH]; intros w calls.
  - unfold add_events. simpl. rewrite !app_nil_r. now destruct w.
  - cbn [listMessagesWithDetails flat_map map].
    erewrite bind_Ok by reflexivity. unfold listing.
    destruct (Messages_Get box (Id msg)) as [fullMsg | err].
    + destruct (extractHeaders (Headers (Payload fullMsg))) as [subject from].
      repeat (erewrite bind_Ok by apply in_session_emit).
      rewrite IH. unfold add_events. cbn [fst snd files listening trace].
      now rewrite <- !app_assoc.
    + erewrite bind_Ok by apply in_session_emit.
      rewrite IH. unfold add_events. cbn [fst snd files listening trace].
      now rewrite <- !app_assoc.
Qed.

(** X17. [listMessagesWithDetails] never returns an error.  It asks for
    every message of the list, in order; a message that cannot be fetched
    gives a warning on standard error and the listing goes on; the lines on
    standard output are those of the messages that could be fetched, in the
    order of the list. *)
Theorem listMessagesWithDetails_never_fails box messages w calls :
  listMessagesWithDetails box messages (w, calls)
  = ((add_events w (flat_map (listing box) messages),
      calls ++ map (fun msg => MessagesGet "me" (Id msg)) messages), Ok tt)
  /\ List.filter is_stdout (flat_map (listing box) messages)
     = flat_map (listing box)
         (List.filter (fun msg => match Messages_Get box (Id msg) with
                                  | Ok _ => true
                                  | Err _ => false
                                  end) messages).
Proof.
  split; [apply listMessagesWithDetails_run |].
  induction messages as [| msg rest IH]; [reflexivity |].
  cbn [flat_map List.filter]. rewrite List.filter_app, IH.
  destruct (Messages_Get box (Id msg)) as [fullMsg | err] eqn:E.
  - cbn [flat_map]. unfold listing at 1 3. now rewrite E.
  - unfold listing at 1. now rewrite E.
Qed.

Lemma listMessagesWithDetails_never_fails_witness :
  snd (listMessagesWithDetails sample_box
         [mkMessage "m1" (container "" []); mkMessage "m3" (container "" []);
          mkMessage "m2" (container "" [])] (signed_in_world, []))
  = Ok tt
  /\ trace (fst (fst (listMessagesWithDetails sample_box
         [mkMessage "m1" (container "" []); mkMessage "m3" (container "" []);
          mkMessage "m2" (container "" [])] (signed_in_world, []))))
     = [ Stdout ("ID: m1" +:+ LF); Stdout ("From: a@x.com" +:+ LF);
         Stdout ("Subject: Report" +:+ LF); Stdout ("---" +:+ LF);
         Stderr ("Warning: failed to get message m3: googleapi: Error 404" +:+ LF);
         Stdout ("ID: m2" +:+ LF); Stdout ("From: " +:+ LF);
         Stdout ("Subject: Hi" +:+ LF); Stdout ("---" +:+ LF) ].
Proof.
  rewrite (proj1 (listMessagesWithDetails_never_fails sample_box _ signed_in_world [])).
  split; vm_compute; reflexivity.
Defined.

(** X18. [list] and [search] send the same listing request and print the
    same details; they differ in three points: [list] sets the query on the
    call only when it is not empty, [search] always; [search] first prints
    the number of messages of the answer (fetched or not) on standard error;
    and the context of the error of a failed request. *)
Theorem runList_and_runSearch env box query maxResults w calls :
  let listed q prefix count :=
    with_service env w calls (fun w1 =>
      match Messages_List box q maxResults with
      | Ok response =>
          ((add_events w1 (count response ++ flat_map (listing box) response),
            calls ++ MessagesList "me" q maxResults
                     :: map (fun msg => MessagesGet "me" (Id msg)) response), Ok tt)
      | Err err => ((w1, calls ++ [MessagesList "me" q maxResults]), Err (prefix +:+ err))
      end) in
  runList env box query maxResults (w, calls)
  = listed (if decide (query = "") then None else Some query) "error listing messages: "
      (fun _ => [])
  /\ runSearch env box query maxResults (w, calls)
     = listed (Some query) "error searching: "
         (fun response => [Stderr ("Found " +:+ format_int (Z.of_nat (length response))
                                   +:+ " messages" +:+ LF +:+ LF)]).
Proof.
  intros listed. unfold listed, runList, runSearch, with_service.
  rewrite !bind_service.
  destruct (getGmailService env w) as [w1 [service | e]]; [| now split].
  split.
  - assert (Hq : (if negb (String.eqb query "") then Some query else None)
                 = (if decide (query = "") then None else Some query)).
    { destruct (decide (query = "")) as [-> | Hne]; [reflexivity |].
      apply String.eqb_neq in Hne. now rewrite Hne. }
    cbv zeta. rewrite Hq.
    destruct (Messages_List box _ maxResults) as [response | err] eqn:El.
    + erewrite bind_Ok by (apply wrapping_Ok; reflexivity).
      rewrite listMessagesWithDetails_run. cbn [fst snd app]. now rewrite <- app_assoc.
    + erewrite bind_Err by reflexivity. reflexivity.
  - destruct (Messages_List box _ maxResults) as [response | err] eqn:El.
    + erewrite bind_Ok by (apply wrapping_Ok; reflexivity).
      erewrite bind_Ok by apply in_session_emit.
      rewrite listMessagesWithDetails_run. unfold add_events.
      cbn [fst snd files listening trace]. now rewrite <- !app_assoc.
    + erewrite bind_Err by reflexivity. reflexivity.
Qed.

Lemma runList_and_runSearch_witness :
  snd (fst (runList (sample_env Timeout None) sample_box "" 10 (signed_in_world, [])))
  = [ MessagesList "me" None 10; MessagesGet "me" "m1"; MessagesGet "me" "m3";
      MessagesGet "me" "m2" ]
  /\ List.filter (fun e => negb (is_stdout e))
       (trace (fst (fst (runSearch (sample_env Timeout None) sample_box "report" 10
                           (signed_in_world, [])))))
     = [ Stderr ("Found 3 messages" +:+ LF +:+ LF);
         Stderr ("Warning: failed to get message m3: googleapi: Error 404" +:+ LF) ].
Proof.
  split.
  - rewrite (proj1 (runList_and_runSearch (sample_env Timeout None) sample_box "" 10
                      signed_in_world [])).
    vm_compute. reflexivity.
  - rewrite (proj2 (runList_and_runSearch (sample_env Timeout None) sample_box "report" 10
                      signed_in_world [])).
    vm_compute. reflexivity.
Defined.

Lemma print_headers_run headers w :
  print_headers headers w
  = (add_events w (map (fun header => Stdout (Name header +:+ ": " +:+ Value header +:+ LF))
                     (List.filter is_shown headers)), Ok tt).
Proof.
  revert w. induction headers as [| header rest IH]; intros w.
  - unfold add_events. simpl. rewrite app_nil_r. now destruct w.
  - cbn [print_headers List.filter].
    assert (Hs : (String.eqb (Name header) "From" || String.eqb (Name header) "To"
                  || String.eqb (Name header) "Subject" || String.eqb (Name header) "Date")
                 = is_shown header).
    { unfold is_shown.
      destruct (String.eqb_spec (Name header) "From") as [-> | H1]; [reflexivity |].
      destruct (String.eqb_spec (Name header) "To") as [-> | H2]; [reflexivity |].
      destruct (String.eqb_spec (Name header) "Subject") as [-> | H3]; [reflexivity |].
      destruct (String.eqb_spec (Name header) "Date") as [-> | H4]; [reflexivity |].
      simpl. symmetry. apply bool_decide_eq_false.
      rewrite !elem_of_cons, elem_of_nil. tauto. }
    rewrite Hs. destruct (is_shown header).
    + erewrite bind_Ok by apply emit_run. rewrite IH.
      unfold add_events. simpl. now rewrite <- app_assoc.
    + erewrite bind_Ok by reflexivity. apply IH.
Qed.

(** X19. [get] asks for the message and prints every header named From,
    To, Subject or Date, in the order of the message and as often as it
    occurs, then an empty line and eighty equals signs, then the text that
    [getBody] finds in the payload. *)
Theorem runGet_output env box messageID w calls :
  runGet env box messageID (w, calls)
  = with_service env w calls (fun w1 =>
      one_request w1 calls (MessagesGet "me" messageID) (Messages_Get box messageID)
        "error getting message: "
        (fun msg =>
           map (fun header => Stdout (Name header +:+ ": " +:+ Value header +:+ LF))
             (List.filter is_shown (Headers (Payload msg)))
           ++ [ Stdout (LF +:+ strings_Repeat "=" 80 +:+ LF);
                Stdout (getBody (Payload msg) +:+ LF) ])).
Proof.
  unfold runGet, with_service. rewrite bind_service.
  destruct (getGmailService env w) as [w1 [service | e]]; [| reflexivity].
  apply one_request_run. intros msg [w2 calls2].
  erewrite bind_Ok by (apply in_session_run, print_headers_run).
  erewrite bind_Ok by apply in_session_emit.
  rewrite in_session_emit. unfold add_events. simpl. now rewrite <- !app_assoc.
Qed.

Lemma runGet_output_witness :
  trace (fst (fst (runGet (sample_env Timeout None) sample_box "m1" (signed_in_world, []))))
  = [ Stdout ("From: a@x.com" +:+ LF); Stdout ("Subject: Report" +:+ LF);
      Stdout ("Date: Mon" +:+ LF); Stdout (LF +:+ strings_Repeat "=" 80 +:+ LF);
      Stdout ("[No text content]" +:+ LF) ].
Proof.
  rewrite (runGet_output (sample_env Timeout None) sample_box "m1" signed_in_world []).
  vm_compute. reflexivity.
Defined.

Lemma counting_from_run count (m : M (World * Z) unit) w calls w' count' r :
  m (w, count) = ((w', count'), r) ->
  counting_from count m (w, calls)
  = ((w', calls), match r with Ok _ => Ok count' | Err e => Err e end).
Proof. intros H. unfold counting_from. simpl. now rewrite H. Qed.

Lemma substring_all (s : string) : String.substring 0 (String.length s) s = s.
Proof. induction s as [| c s IH]; [reflexivity | simpl; now rewrite IH]. Qed.

(** Replacing the first tilde of a path that starts with one. *)
Lemma strings_Replace_once_tilde (rest home : string) :
  strings_Replace_once ("~" +:+ rest) "~" home = home +:+ rest.
Proof.
  change ("~" +:+ rest) with (String "~" rest).
  cbn [strings_Replace_once String.prefix]. 
  destruct (ascii_dec "~" "~") as [_ | Hne]; [| now contradiction Hne].
  assert (Hp : String.prefix "" rest = true) by now destruct rest.
  rewrite Hp. cbn [String.length]. 
  replace (S (String.length rest) - 1)%nat with (String.length rest) by lia.
  cbn [String.substring]. now rewrite substring_all.
Qed.

Lemma prefix_tilde_slash (dir : string) :
  String.prefix "~/" dir = true -> exists rest, dir = "~/" +:+ rest.
Proof.
  destruct dir as [| c1 [| c2 rest]]; cbn [String.prefix]; try discriminate.
  - destruct (ascii_dec "~" c1); discriminate.
  - destruct (ascii_dec "~" c1) as [<- |]; [| discriminate].
    destruct (ascii_dec "/" c2) as [<- |]; [| discriminate].
    intros _. now exists rest.
Qed.

(** A path that starts with [~/] after the expansion of the variables. *)
Lemma ExpandTilde_home env ExpandEnv path rest :
  ExpandEnv path = "~/" +:+ rest ->
  Gmail.ExpandTilde env ExpandEnv path
  = match UserHomeDir env with
    | Ok home => Ok (home +:+ "/" +:+ rest)
    | Err err => Err ("error getting home directory: " +:+ err)
    end.
Proof.
  unfold Gmail.ExpandTilde. intros ->.
  change ("~/" +:+ rest) with ("~" +:+ ("/" +:+ rest)).
  change (String.prefix "~/" ("~" +:+ "/" +:+ rest)) with (String.prefix "" rest).
  assert (Hp : String.prefix "" rest = true) by now destruct rest.
  rewrite Hp. destruct (UserHomeDir env) as [home | err]; [| reflexivity].
  now rewrite strings_Replace_once_tilde.
Qed.

(** X20. [ExpandTilde] replaces the tilde of a path that, after the
    expansion of the environment variables, starts with [~/] by the home
    directory, and fails with the error of the home directory lookup behind
    its context; every other path, a bare [~] or [~user/...] included, is
    returned after the expansion of the variables without asking for the
    home directory. *)
Theorem ExpandTilde_cases env ExpandEnv path :
  (forall rest, ExpandEnv path = "~/" +:+ rest ->
     Gmail.ExpandTilde env ExpandEnv path
     = match UserHomeDir env with
       | Ok home => Ok (home +:+ "/" +:+ rest)
       | Err err => Err ("error getting home directory: " +:+ err)
       end)
  /\ ((forall rest, ExpandEnv path <> "~/" +:+ rest) ->
      Gmail.ExpandTilde env ExpandEnv path = Ok (ExpandEnv path)).
Proof.
  split.
  - intros rest. apply ExpandTilde_home.
  - intros Hnot. unfold Gmail.ExpandTilde.
    destruct (String.prefix "~/" (ExpandEnv path)) eqn:Ep; [| reflexivity].
    apply prefix_tilde_slash in Ep as [rest Hrest]. now contradiction (Hnot rest).
Qed.

Lemma ExpandTilde_cases_witness :
  Gmail.ExpandTilde (sample_env Timeout None) no_variables "~/Downloads"
  = Ok "/home/u/Downloads"
  /\ Gmail.ExpandTilde homeless_env no_variables "~/Downloads"
     = Err "error getting home directory: $HOME is not defined"
  /\ Gmail.ExpandTilde homeless_env no_variables "/tmp/~/x" = Ok "/tmp/~/x"
  /\ Gmail.ExpandTilde homeless_env no_variables "~" = Ok "~".
Proof.
  split; [| split; [| split]].
  - exact (proj1 (ExpandTilde_cases (sample_env Timeout None) no_variables "~/Downloads")
             "Downloads" eq_refl).
  - exact (proj1 (ExpandTilde_cases homeless_env no_variables "~/Downloads")
             "Downloads" eq_refl).
  - apply (proj2 (ExpandTilde_cases homeless_env no_variables "/tmp/~/x")).
    intros rest. discriminate.
  - apply (proj2 (ExpandTilde_cases homeless_env no_variables "~")).
    intros rest. discriminate.
Defined.

Lemma os_MkdirAll_run env path mode w :
  os_MkdirAll env path mode w
  = (add_events w [EvMkdirAll path mode],
     match MkdirAll_error env path with Some e => Err e | None => Ok tt end).
Proof.
  unfold os_MkdirAll. erewrite bind_Ok by apply emit_run.
  now destruct (MkdirAll_error env path).
Qed.

(** The expansion written out in [runDownloadAttachments] is [ExpandTilde]. *)
Lemma expand_inline env ExpandEnv downloadDir (s : Session) :
  (let dir := ExpandEnv downloadDir in
   if String.prefix "~/" dir then
     home ← wrapping "error getting home directory: " (outcome (UserHomeDir env));
     ret (strings_Replace_once dir "~" home)
   else ret dir : M Session string) s
  = (s, Gmail.ExpandTilde env ExpandEnv downloadDir).
Proof.
  unfold Gmail.ExpandTilde. cbv zeta.
  destruct (String.prefix "~/" (ExpandEnv downloadDir)); [| reflexivity].
  unfold mbind, M_bind, wrapping, outcome.
  now destruct (UserHomeDir env).
Qed.

Lemma download_rest mark env messageID payload dir w1 calls' (report : Z -> M Session unit) :
  (forall count s, report count s
                   = ((add_events (fst s) [download_report mark count dir], snd s), Ok tt)) ->
  (wrapping "error creating download directory: " (in_session (os_MkdirAll env dir 493));;
   attachmentCount ← counting_from 0 (processAttachments env messageID payload dir);
   report attachmentCount) (w1, calls')
  = let w2 := add_events w1 [EvMkdirAll dir 493] in
    match MkdirAll_error env dir with
    | Some err => ((w2, calls'), Err ("error creating download directory: " +:+ err))
    | None =>
        match processAttachments env messageID payload dir (w2, 0%Z) with
        | ((w3, count), Ok _) =>
            ((add_events w3 [download_report mark count dir], calls'), Ok tt)
        | ((w3, count), Err err) => ((w3, calls'), Err err)
        end
    end.
Proof.
  intros Hreport. cbv zeta.
  pose proof (in_session_run _ w1 calls' _ _ (os_MkdirAll_run env dir 493 w1)) as Hmk.
  destruct (MkdirAll_error env dir) as [err |].
  - erewrite bind_Err; [reflexivity |]. unfold wrapping. now rewrite Hmk.
  - erewrite bind_Ok by (apply wrapping_Ok; exact Hmk).
    destruct (processAttachments env messageID payload dir
                (add_events w1 [EvMkdirAll dir 493], 0%Z)) as [[w3 count] [[] | err]] eqn:Ep.
    + erewrite bind_Ok by (rewrite (counting_from_run _ _ _ calls' _ _ _ Ep); reflexivity).
      apply Hreport.
    + erewrite bind_Err by (rewrite (counting_from_run _ _ _ calls' _ _ _ Ep); reflexivity).
      reflexivity.
Qed.

Lemma runDownloadAttachments_run env box ExpandEnv downloadDir messageID w calls :
  runDownloadAttachments env box ExpandEnv downloadDir messageID (w, calls)
  = with_service env w calls
      (download_outcome (check_mark +:+ " ") env box ExpandEnv downloadDir messageID calls).
Proof.
  unfold runDownloadAttachments, with_service. rewrite bind_service.
  destruct (getGmailService env w) as [w1 [service | e]]; [| reflexivity].
  unfold download_outcome. cbv zeta.
  destruct (Messages_Get box messageID) as [msg | err] eqn:Eg.
  2:{ erewrite bind_Err by reflexivity. reflexivity. }
  erewrite bind_Ok by (apply wrapping_Ok; reflexivity).
  pose proof (expand_inline env ExpandEnv downloadDir (w1, calls ++ [MessagesGet "me" messageID]))
    as Hdir. cbv zeta in Hdir.
  destruct (Gmail.ExpandTilde env ExpandEnv downloadDir) as [dir | err].
  2:{ erewrite bind_Err by exact Hdir. reflexivity. }
  erewrite bind_Ok by exact Hdir.
  apply (download_rest (check_mark +:+ " ")).
  intros count s. unfold download_report.
  destruct (count =? 0)%Z; apply in_session_emit.
Qed.

Lemma GetService_getClient env : Gmail.GetService (getClient env) env = getGmailService env.
Proof. reflexivity. Qed.

Lemma Cli_runDownloadAttachments_run env box ExpandEnv downloadDir messageID w calls :
  Cli.runDownloadAttachments (getClient env) env box ExpandEnv downloadDir messageID (w, calls)
  = with_service env w calls
      (download_outcome "" env box ExpandEnv downloadDir messageID calls).
Proof.
  unfold Cli.runDownloadAttachments, with_service.
  rewrite GetService_getClient, bind_service.
  destruct (getGmailService env w) as [w1 [service | e]]; [| reflexivity].
  unfold download_outcome. cbv zeta.
  destruct (Messages_Get box messageID) as [msg | err] eqn:Eg.
  2:{ erewrite bind_Err by reflexivity. reflexivity. }
  erewrite bind_Ok by (apply wrapping_Ok; reflexivity).
  destruct (Gmail.ExpandTilde env ExpandEnv downloadDir) as [dir | err].
  2:{ erewrite bind_Err by reflexivity. reflexivity. }
  erewrite bind_Ok by reflexivity.
  apply (download_rest "").
  intros count s. unfold download_report.
  destruct (count =? 0)%Z; apply in_session_emit.
Qed.

Lemma wrap_int_small (z : Z) : (- 2 ^ 63 <= z < 2 ^ 63)%Z -> wrap_int z = z.
Proof. intros H. unfold wrap_int. rewrite Z.mod_small; lia. Qed.

Lemma count_after_small (n : nat) :
  (Z.of_nat n < 2 ^ 63)%Z -> count_after n 0 = Z.of_nat n.
Proof.
  induction n as [| n IH]; intros Hn; [reflexivity |].
  change (count_after (S n) 0) with (wrap_int (count_after n 0 + 1)).
  rewrite IH by lia. rewrite wrap_int_small by lia. lia.
Qed.

(** X21. [runDownloadAttachments] of [internal/cli], which calls
    [ExpandTilde], behaves as the one of the main package, which has the
    expansion written out: the same result, requests, files and actions,
    except that the report of a download starts with a check mark in the
    main package. *)
Theorem runDownloadAttachments_same_in_both_packages
    env box ExpandEnv downloadDir messageID w calls :
  let main := runDownloadAttachments env box ExpandEnv downloadDir messageID (w, calls) in
  let cli := Cli.runDownloadAttachments (getClient env) env box ExpandEnv downloadDir
               messageID (w, calls) in
  snd cli = snd main
  /\ snd (fst cli) = snd (fst main)
  /\ files (fst (fst cli)) = files (fst (fst main))
  /\ listening (fst (fst cli)) = listening (fst (fst main))
  /\ (trace (fst (fst cli)) = trace (fst (fst main))
      \/ exists count dir,
           count <> 0%Z
           /\ differ_in_last (trace (fst (fst main))) (trace (fst (fst cli)))
                (Stderr (check_mark +:+ " Downloaded " +:+ format_int count
                         +:+ " attachment(s) to " +:+ dir +:+ LF))
                (Stderr ("Downloaded " +:+ format_int count
                         +:+ " attachment(s) to " +:+ dir +:+ LF))).
Proof.
  cbv zeta. rewrite runDownloadAttachments_run, Cli_runDownloadAttachments_run.
  unfold with_service.
  destruct (getGmailService env w) as [w1 [service | e]]; [| repeat split; now left].
  unfold download_outcome. cbv zeta.
  destruct (Messages_Get box messageID) as [msg | err]; [| repeat split; now left].
  destruct (Gmail.ExpandTilde env ExpandEnv downloadDir) as [dir | err];
    [| repeat split; now left].
  destruct (MkdirAll_error env dir) as [err |]; [repeat split; now left |].
  destruct (processAttachments env messageID (Payload msg) dir _) as [[w3 count] [[] | err]];
    [| repeat split; now left].
  repeat split. unfold download_report. cbn [fst snd].
  destruct (Z.eqb_spec count 0) as [-> | Hne]; [now left |].
  right. exists count, dir. split; [exact Hne |]. now exists (trace w3).
Qed.

Lemma runDownloadAttachments_same_in_both_packages_witness :
  let env := sample_env Timeout None in
  let main := runDownloadAttachments env sample_box no_variables "~/Downloads" "m1"
                (signed_in_world, []) in
  let cli := Cli.runDownloadAttachments (getClient env) env sample_box no_variables
               "~/Downloads" "m1" (signed_in_world, []) in
  snd cli = snd main
  /\ files (fst (fst cli)) = files (fst (fst main))
  /\ last (trace (fst (fst cli)))
     = Some (Stderr ("Downloaded 2 attachment(s) to /home/u/Downloads" +:+ LF)).
Proof.
  intros env main cli.
  destruct (runDownloadAttachments_same_in_both_packages env sample_box no_variables
              "~/Downloads" "m1" signed_in_world []) as (Hr & _ & Hf & _).
  split; [exact Hr |]. split; [exact Hf |]. vm_compute. reflexivity.
Defined.

(** X22. When the message is there, the directory can be made and every
    attachment can be fetched, decoded and written, [download-attachments]
    makes the directory with mode 0755 first, even for a message without
    attachments, saves the attachments in document order and reports their
    number and the directory, or that none was found. *)
Theorem runDownloadAttachments_reports_count
    env box ExpandEnv downloadDir messageID w calls w1 service msg dir :
  getGmailService env w = (w1, Ok service) ->
  Messages_Get box messageID = Ok msg ->
  Gmail.ExpandTilde env ExpandEnv downloadDir = Ok dir ->
  MkdirAll_error env dir = None ->
  all_obtainable env w1 messageID dir (Payload msg) = true ->
  (Z.of_nat (length (attachment_parts (Payload msg))) < 2 ^ 63)%Z ->
  exists w3,
    runDownloadAttachments env box ExpandEnv downloadDir messageID (w, calls)
    = ((add_events w3
          [ match attachment_parts (Payload msg) with
            | [] => Stderr ("No attachments found" +:+ LF)
            | _ :: _ =>
                Stderr (check_mark +:+ " Downloaded "
                        +:+ format_int (Z.of_nat (length (attachment_parts (Payload msg))))
                        +:+ " attachment(s) to " +:+ dir +:+ LF)
            end ],
        calls ++ [MessagesGet "me" messageID]), Ok tt)
    /\ trace w3 = trace w1 ++ EvMkdirAll dir 493
                  :: flat_map (download_actions env messageID dir)
                       (attachment_parts (Payload msg))
    /\ files w3 = saved_files env messageID dir (attachment_parts (Payload msg)) (files w1).
Proof.
  intros Hs Hget Hdir Hmk Hall Hsmall.
  rewrite runDownloadAttachments_run. unfold with_service, download_outcome.
  rewrite Hs, Hget, Hdir, Hmk. cbv zeta.
  set (w2 := add_events w1 [EvMkdirAll dir 493]).
  destruct (processAttachments_run env messageID dir (Payload msg) w2 0%Z Hall)
    as (w3 & Hrun & Htrace & _).
  destruct (processAttachments_stored env messageID dir (Payload msg) w2 0%Z)
    as (w3' & c3 & r3 & k & Hrun' & Hfiles & _ & _ & Hk).
  rewrite Hrun in Hrun'. injection Hrun' as <- <- <-. subst k.
  rewrite firstn_all in Hfiles.
  rewrite Hrun. exists w3. split; [| split].
  - rewrite count_after_small by exact Hsmall. unfold download_report.
    destruct (attachment_parts (Payload msg)) as [| p l]; [reflexivity |].
    destruct (Z.eqb_spec (Z.of_nat (length (p :: l))) 0) as [H0 | _];
      [discriminate H0 | reflexivity].
  - rewrite Htrace. unfold w2, add_events. simpl. now rewrite <- app_assoc.
  - exact Hfiles.
Qed.

Lemma runDownloadAttachments_reports_count_witness :
  exists w3,
    runDownloadAttachments (sample_env Timeout None) sample_box no_variables "~/Downloads" "m1"
      (signed_in_world, [])
    = ((add_events w3
          [Stderr (check_mark +:+ " Downloaded 2 attachment(s) to /home/u/Downloads" +:+ LF)],
        [MessagesGet "me" "m1"]), Ok tt)
    /\ List.filter is_write (trace w3)
       = [ EvWriteFile "/home/u/Downloads/a.pdf" "Hello" 420;
           EvWriteFile "/home/u/Downloads/b.csv" "World" 420 ].
Proof.
  destruct (runDownloadAttachments_reports_count (sample_env Timeout None) sample_box
              no_variables "~/Downloads" "m1" signed_in_world [] signed_in_world
              (mkService (mkClient sample_config (Some sample_token))) sample_mail
              "/home/u/Downloads")
    as (w3 & Hrun & Htrace & _); try (vm_compute; reflexivity).
  exists w3. split; [exact Hrun |]. rewrite Htrace. vm_compute. reflexivity.
Defined.

(** X23. [download-attachments] fetches the message before it touches the
    file system: when the message cannot be fetched nothing else happens;
    when the directory starts with [~/] and there is no home directory the
    command fails before making any directory; when the directory cannot be
    made nothing is downloaded. *)
Theorem runDownloadAttachments_early_failures
    env box ExpandEnv downloadDir messageID w calls w1 service :
  getGmailService env w = (w1, Ok service) ->
  let run := runDownloadAttachments env box ExpandEnv downloadDir messageID (w, calls) in
  let calls' := calls ++ [MessagesGet "me" messageID] in
  (forall err, Messages_Get box messageID = Err err ->
     run = ((w1, calls'), Err ("error getting message: " +:+ err)))
  /\ (forall msg rest err,
        Messages_Get box messageID = Ok msg ->
        ExpandEnv downloadDir = "~/" +:+ rest -> UserHomeDir env = Err err ->
        run = ((w1, calls'), Err ("error getting home directory: " +:+ err)))
  /\ (forall msg dir err,
        Messages_Get box messageID = Ok msg ->
        Gmail.ExpandTilde env ExpandEnv downloadDir = Ok dir ->
        MkdirAll_error env dir = Some err ->
        run = ((add_events w1 [EvMkdirAll dir 493], calls'),
               Err ("error creating download directory: " +:+ err))).
Proof.
  intros Hs. cbv zeta. rewrite runDownloadAttachments_run.
  unfold with_service, download_outcome. rewrite Hs. cbv zeta.
  split; [| split].
  - now intros err ->.
  - intros msg rest err -> Hrest Hhome.
    rewrite (ExpandTilde_home env ExpandEnv downloadDir rest Hrest).
    now rewrite Hhome.
  - now intros msg dir err -> -> ->.
Qed.

Lemma runDownloadAttachments_early_failures_witness :
  runDownloadAttachments (sample_env Timeout None) sample_box no_variables "~/Downloads" "m9"
    (signed_in_world, [])
  = ((signed_in_world, [MessagesGet "me" "m9"]),
     Err "error getting message: googleapi: Error 404").
Proof.
  apply (runDownloadAttachments_early_failures (sample_env Timeout None) sample_box
           no_variables "~/Downloads" "m9" signed_in_world [] signed_in_world
           (mkService (mkClient sample_config (Some sample_token))));
    vm_compute; reflexivity.
Defined.
